(** * Smart File Management System: the classification, search and
      duplicate-grouping engine

    A shallow embedding of the C++17 sources [FileManager.cpp],
    [FileSorter.cpp], [FileSearcher.cpp] and [Menu.cpp], followed by the
    properties of the engine.

    Conventions of the embedding
    - [std::string] is [string] (a sequence of 8-bit characters);
      [std::string::npos] is [None] in an [option nat] position.
    - [std::uintmax_t] is [N]; the engine only stores and prints sizes, it
      performs no arithmetic on them.
    - [std::vector<T>] is [list T]; [push_back x] is [l ++ [x]].
    - [std::map<std::string, T>] is the sorted association list of the
      Standard Library over [String_as_OT], whose order (lexicographic on
      character codes) is the order of [std::less<std::string>], so that
      iteration visits the keys in the same order as the C++ container.
    - [std::filesystem] is an interface ([FileSystem]) whose operations may
      throw [fs::filesystem_error]; the engine is written in a state monad
      with exceptions over that interface, the log and [std::cerr].
    - The program never calls [setlocale], so [tolower] is the one of the
      "C" locale. *)

From Stdlib Require Import String Ascii List Bool Arith NArith ZArith Lia.
From Stdlib Require Import Permutation.
From Stdlib Require Import FMapList FMapFacts OrderedTypeEx.
From Stdlib Require Import DecimalString DecimalN DecimalZ.
Import ListNotations.
Open Scope string_scope.

(* ===================================================================== *)
(** * Part I: the embedding                                               *)
(* ===================================================================== *)

(** ** [std::vector] *)

(** [v.push_back(x)] *)
Definition push_back {A : Type} (v : list A) (x : A) : list A :=
  (v ++ [x])%list.

(** ** [std::string] operations used by the engine *)

(** [::tolower] / [std::tolower] in the "C" locale: only 'A'..'Z' change. *)
Definition tolower (c : ascii) : ascii :=
  let n := nat_of_ascii c in
  if (65 <=? n)%nat && (n <=? 90)%nat then ascii_of_nat (n + 32) else c.

(** [std::transform(s.begin(), s.end(), s.begin(), f)] *)
Fixpoint transform (f : ascii -> ascii) (s : string) : string :=
  match s with
  | EmptyString => EmptyString
  | String c s' => String (f c) (transform f s')
  end.

(** [s.find_last_of(c)]: the greatest index holding [c], [None] for npos. *)
Fixpoint find_last_of (c : ascii) (s : string) : option nat :=
  match s with
  | EmptyString => None
  | String a s' =>
      match find_last_of c s' with
      | Some i => Some (S i)
      | None => if Ascii.eqb a c then Some 0%nat else None
      end
  end.

(** [s.substr(pos)] for [pos <= s.size()] (the only way the engine calls
    it: [pos] comes from [find_last_of]). *)
Fixpoint substr (pos : nat) (s : string) : string :=
  match pos, s with
  | O, _ => s
  | S p, String _ s' => substr p s'
  | S _, EmptyString => EmptyString
  end.

(** [has_char c s]: the character [c] occurs in [s]. *)
Fixpoint has_char (c : ascii) (s : string) : bool :=
  match s with
  | EmptyString => false
  | String a s' => Ascii.eqb a c || has_char c s'
  end.

(** [s.find(pat)]: index of the first occurrence, [None] for npos. *)
Definition string_find (s pat : string) : option nat := String.index 0 pat s.

(** [std::to_string] on an unsigned value: the decimal digits. *)
Definition to_string (n : N) : string := NilEmpty.string_of_uint (N.to_uint n).

(** [std::to_string] on an [int]. *)
Definition to_string_int (z : Z) : string := NilEmpty.string_of_int (Z.to_int z).

(** [static_cast<int>(n)] of a [size_t]: reduction modulo 2^32 into the
    signed 32-bit range. *)
Definition static_cast_int (n : nat) : Z :=
  let r := (Z.of_nat n mod 2 ^ 32)%Z in
  if (r <? 2 ^ 31)%Z then r else (r - 2 ^ 32)%Z.

(** ** [FileInfo] (FileInfo.h) *)

Record FileInfo : Type := mkFileInfo {
  name : string;        (* filename with extension *)
  path : string;        (* fs::path, complete filesystem path *)
  extension : string;   (* file extension *)
  size : N;             (* std::uintmax_t *)
  hash : string         (* unused by the engine, always "" *)
}.

(** [FileInfo(n, p, ext, s)] *)
Definition FileInfo_make (n p ext : string) (s : N) : FileInfo :=
  mkFileInfo n p ext s "".

(** [FileInfo()] *)
Definition FileInfo_default : FileInfo := mkFileInfo "" "" "" 0 "".

(** ** [FileManager::extractExtension] *)

Definition extractExtension (filename : string) : string :=
  match find_last_of "." filename with
  | Some dotPos =>
      if (0 <? dotPos)%nat
      then transform tolower (substr dotPos filename)
      else ""
  | None => ""
  end.

(** ** [FileSorter]: the category table *)

Module SMap := FMapList.Make(String_as_OT).
Module SMapP := FMapFacts.Properties(SMap).
Module SMapF := SMapP.F.

(** [extensionCategories[ext] = cat;] *)
Definition assign (ext cat : string) (m : SMap.t string) : SMap.t string :=
  SMap.add ext cat m.

(** The assignments of [FileSorter::initializeCategories], in source order. *)
Definition category_assignments : list (string * string) :=
  [ (".txt", "Documents"); (".pdf", "Documents"); (".doc", "Documents");
    (".docx", "Documents"); (".xlsx", "Documents"); (".xls", "Documents");
    (".ppt", "Documents"); (".pptx", "Documents"); (".odt", "Documents");
    (".rtf", "Documents");
    (".jpg", "Images"); (".jpeg", "Images"); (".png", "Images");
    (".gif", "Images"); (".bmp", "Images"); (".svg", "Images");
    (".ico", "Images"); (".tiff", "Images"); (".webp", "Images");
    (".mp4", "Videos"); (".avi", "Videos"); (".mkv", "Videos");
    (".mov", "Videos"); (".wmv", "Videos"); (".flv", "Videos");
    (".webm", "Videos"); (".m4v", "Videos");
    (".mp3", "Audio"); (".wav", "Audio"); (".flac", "Audio");
    (".aac", "Audio"); (".ogg", "Audio"); (".wma", "Audio");
    (".m4a", "Audio");
    (".zip", "Archives"); (".rar", "Archives"); (".7z", "Archives");
    (".tar", "Archives"); (".gz", "Archives"); (".bz2", "Archives");
    (".xz", "Archives");
    (".cpp", "Code"); (".h", "Code"); (".hpp", "Code"); (".c", "Code");
    (".py", "Code"); (".java", "Code"); (".js", "Code"); (".ts", "Code");
    (".html", "Code"); (".css", "Code"); (".php", "Code"); (".rb", "Code");
    (".go", "Code"); (".rs", "Code");
    (".exe", "Executables"); (".dll", "Executables"); (".so", "Executables");
    (".app", "Executables"); (".deb", "Executables"); (".rpm", "Executables") ].

(** [FileSorter::initializeCategories] run on the empty map of a freshly
    constructed [FileSorter]. *)
Definition initializeCategories (m : SMap.t string) : SMap.t string :=
  fold_left (fun acc kv => assign (fst kv) (snd kv) acc) category_assignments m.

Definition extensionCategories : SMap.t string :=
  initializeCategories (SMap.empty string).

(** [FileSorter::getCategoryForExtension] *)
Definition getCategoryForExtension (ext : string) : string :=
  match SMap.find ext extensionCategories with
  | Some cat => cat
  | None => "Others"
  end.

(** ** [FileSearcher] *)

(** [FileSearcher::toLowercase] *)
Definition toLowercase (str : string) : string := transform tolower str.

(** [FileSearcher::generateSimpleHash] *)
Definition generateSimpleHash (file : FileInfo) : string :=
  to_string (size file) ++ "_" ++ name file.

(** The methods of [FileSearcher] are [const] and their only effect is to
    hand messages to [Logger::log]; they are modelled as functions that
    return their result together with the messages logged, in order. *)

(** The [for] loop of [searchByName]. *)
Fixpoint searchByName_loop (lowerSearchTerm : string) (files : list FileInfo)
    (results : list FileInfo) (log : list string)
    : list FileInfo * list string :=
  match files with
  | [] => (results, log)
  | file :: rest =>
      let lowerFileName := toLowercase (name file) in
      match string_find lowerFileName lowerSearchTerm with
      | Some _ =>
          searchByName_loop lowerSearchTerm rest (push_back results file)
            (push_back log ("Match found: " ++ name file))
      | None => searchByName_loop lowerSearchTerm rest results log
      end
  end.

(** [FileSearcher::searchByName] *)
Definition searchByName (files : list FileInfo) (searchTerm : string)
    : list FileInfo * list string :=
  let lowerSearchTerm := toLowercase searchTerm in
  let log0 := ["Searching for files containing: " ++ searchTerm] in
  let '(results, log1) := searchByName_loop lowerSearchTerm files [] log0 in
  (results,
   push_back log1 ("Search complete: "
                   ++ to_string (N.of_nat (length results))
                   ++ " matches found")).

(** [hashGroups[hash].push_back(file);] *)
Definition push_back_at (hashGroups : SMap.t (list FileInfo))
    (h : string) (file : FileInfo) : SMap.t (list FileInfo) :=
  match SMap.find h hashGroups with
  | Some group => SMap.add h (push_back group file) hashGroups
  | None => SMap.add h [file] hashGroups
  end.

(** Step 1 of [findDuplicates]: group by hash. *)
Definition group_by_hash (files : list FileInfo) : SMap.t (list FileInfo) :=
  fold_left (fun hashGroups file =>
               push_back_at hashGroups (generateSimpleHash file) file)
            files (SMap.empty (list FileInfo)).

(** Step 2 of [findDuplicates]: the loop over [hashGroups], in key order,
    that keeps the groups of size at least 2 and logs each of them. *)
Definition keep_duplicates (hashGroups : SMap.t (list FileInfo))
    (log : list string) : SMap.t (list FileInfo) * list string :=
  SMap.fold
    (fun h group acc =>
       if (2 <=? length group)%nat
       then (SMap.add h group (fst acc),
             push_back (snd acc)
               ("Duplicate group found: "
                ++ to_string (N.of_nat (length group)) ++ " files"))
       else acc)
    hashGroups (SMap.empty (list FileInfo), log).

(** [FileSearcher::findDuplicates] *)
Definition findDuplicates (files : list FileInfo)
    : SMap.t (list FileInfo) * list string :=
  let log0 := ["Starting duplicate detection on "
               ++ to_string (N.of_nat (length files)) ++ " files"] in
  let hashGroups := group_by_hash files in
  let '(duplicates, log1) := keep_duplicates hashGroups log0 in
  (duplicates,
   push_back log1 ("Duplicate detection complete: "
                   ++ to_string (N.of_nat (SMap.cardinal duplicates))
                   ++ " groups found")).

(** ** [Menu::handleSearchFiles] (Menu.cpp)

    The console is left out: the handler is modelled by what it decides.
    [files] is [fileManager->getFiles()] and [searchTerm] the line that
    [getUserInput] read with [std::getline]. *)

Inductive search_interaction : Type :=
| NoFilesScanned
| EmptyTermRejected
| Searched (results : list FileInfo) (log : list string).

Definition handleSearchFiles (files : list FileInfo) (searchTerm : string)
    : search_interaction :=
  match files with
  | [] => NoFilesScanned
  | _ :: _ =>
      if String.eqb searchTerm ""
      then EmptyTermRejected
      else let '(results, log) := searchByName files searchTerm in
           Searched results log
  end.

(** ** The filesystem provider ([std::filesystem])

    A call either returns or throws [fs::filesystem_error]; [what] is the
    text of [e.what()]. *)

Inductive outcome (A : Type) : Type :=
| Returns (a : A)
| Throws (what : string).

Arguments Returns {A} a.
Arguments Throws {A} what.

(** The operations of [std::filesystem] that the engine calls, over an
    abstract filesystem state. The queries do not change the state; the
    two mutators return the new state whether they throw or not.
    [fs_directory_iterator] gives the entries that the iteration yields, in
    order, and the error that ends it early, if any (an error with no entry
    before it is a failure to open the directory). *)

Class FileSystem (FS : Type) : Type := {
  fs_exists : FS -> string -> outcome bool;
  fs_is_directory : FS -> string -> outcome bool;
  fs_is_regular_file : FS -> string -> outcome bool;
  fs_file_size : FS -> string -> outcome N;
  fs_directory_iterator : FS -> string -> list string * option string;
  fs_create_directories : FS -> string -> FS * outcome bool;
  fs_rename : FS -> string -> string -> FS * outcome unit
}.

(** The law of path resolution: a path below a directory is reached
    through that directory, so it can only exist if the directory does. *)
Definition resolves_through_parent (FS : Type) {FSI : FileSystem FS} : Prop :=
  forall (s : FS) (d n : string),
    d <> "" ->
    fs_exists s (d ++ "/" ++ n) = Returns true ->
    fs_exists s d = Returns true.

(** ** Program state and the monad of the engine *)

(** What the engine reads and writes: the filesystem, the messages handed
    to [Logger::log] (oldest first; the timestamp that [Logger::log] puts in
    front of each is not part of the message), the lines written to
    [std::cerr], and [FileManager::files]. *)
Record world (FS : Type) : Type := mkWorld {
  w_fs : FS;
  w_log : list string;
  w_cerr : list string;
  w_files : list FileInfo
}.

Arguments mkWorld {FS} w_fs w_log w_cerr w_files.
Arguments w_fs {FS} w.
Arguments w_log {FS} w.
Arguments w_cerr {FS} w.
Arguments w_files {FS} w.

Section Monad.
Variable FS : Type.

(** A computation runs from a state to a state and either returns a value
    or throws; the state reached is kept in both cases, as in C++. *)
Definition M (A : Type) : Type := world FS -> world FS * outcome A.

Definition ret {A : Type} (a : A) : M A := fun w => (w, Returns a).

Definition bind {A B : Type} (c : M A) (k : A -> M B) : M B :=
  fun w =>
    match c w with
    | (w', Returns a) => k a w'
    | (w', Throws what) => (w', Throws what)
    end.

Definition throw {A : Type} (what : string) : M A := fun w => (w, Throws what).

(** [try { c } catch (const fs::filesystem_error& e) { handler(e.what()) }] *)
Definition try_catch {A : Type} (c : M A) (handler : string -> M A) : M A :=
  fun w =>
    match c w with
    | (w', Returns a) => (w', Returns a)
    | (w', Throws what) => handler what w'
    end.

(** State updates: a message appended to the log, a line appended to
    [std::cerr], the filesystem or [FileManager::files] replaced. *)
Definition log_line (w : world FS) (message : string) : world FS :=
  mkWorld (w_fs w) (push_back (w_log w) message) (w_cerr w) (w_files w).

Definition cerr_line (w : world FS) (message : string) : world FS :=
  mkWorld (w_fs w) (w_log w) (push_back (w_cerr w) message) (w_files w).

Definition set_fs (w : world FS) (s : FS) : world FS :=
  mkWorld s (w_log w) (w_cerr w) (w_files w).

Definition set_files (w : world FS) (files : list FileInfo) : world FS :=
  mkWorld (w_fs w) (w_log w) (w_cerr w) files.

(** [Logger::getInstance().log(message)] *)
Definition Logger_log (message : string) : M unit :=
  fun w => (log_line w message, Returns tt).

(** [std::cerr << message << std::endl] *)
Definition cerr_endl (message : string) : M unit :=
  fun w => (cerr_line w message, Returns tt).

(** [files.clear()], [files.push_back(info)], [files.size()] *)
Definition files_clear : M unit :=
  fun w => (set_files w [], Returns tt).

Definition files_push_back (info : FileInfo) : M unit :=
  fun w => (set_files w (push_back (w_files w) info), Returns tt).

Definition files_size : M nat := fun w => (w, Returns (length (w_files w))).

End Monad.

Arguments ret {FS A} a.
Arguments bind {FS A B} c k.
Arguments throw {FS A} what.
Arguments try_catch {FS A} c handler.
Arguments log_line {FS} w message.
Arguments cerr_line {FS} w message.
Arguments set_fs {FS} w s.
Arguments set_files {FS} w files.
Arguments Logger_log {FS} message.
Arguments cerr_endl {FS} message.
Arguments files_clear {FS}.
Arguments files_push_back {FS} info.
Arguments files_size {FS}.

Declare Scope engine_scope.
Delimit Scope engine_scope with engine.
Notation "x <- c ;; k" := (bind c (fun x => k))
  (at level 61, c at next level, right associativity) : engine_scope.
Notation "c ;; k" := (bind c (fun _ => k))
  (at level 61, right associativity) : engine_scope.
Open Scope engine_scope.

Section Engine.
Context {FS : Type} {FSI : FileSystem FS}.

(** The filesystem calls, lifted to the monad. *)
Definition exists_ (p : string) : M FS bool :=
  fun w => (w, fs_exists (w_fs w) p).

Definition is_directory (p : string) : M FS bool :=
  fun w => (w, fs_is_directory (w_fs w) p).

Definition is_regular_file (p : string) : M FS bool :=
  fun w => (w, fs_is_regular_file (w_fs w) p).

Definition file_size (p : string) : M FS N :=
  fun w => (w, fs_file_size (w_fs w) p).

Definition create_directories (p : string) : M FS bool :=
  fun w =>
    let '(s', r) := fs_create_directories (w_fs w) p in
    (set_fs w s', r).

Definition rename (from to : string) : M FS unit :=
  fun w =>
    let '(s', r) := fs_rename (w_fs w) from to in
    (set_fs w s', r).

(** *** [FileSorter] *)

(** [FileSorter::createDirectoryIfNotExists] *)
Definition createDirectoryIfNotExists (path : string) : M FS bool :=
  try_catch
    (ex <- exists_ path ;;
     if ex then ret true else create_directories path)
    (fun what =>
       Logger_log ("ERROR creating directory " ++ path ++ ": " ++ what) ;;
       ret false).

(** The paths that [organizeByExtension] computes for a record. *)
Definition categoryPath_of (baseDirectory : string) (file : FileInfo) : string :=
  baseDirectory ++ "/" ++ getCategoryForExtension (extension file).

Definition destPath_of (baseDirectory : string) (file : FileInfo) : string :=
  categoryPath_of baseDirectory file ++ "/" ++ name file.

(** The body of the [for] loop of [organizeByExtension], for one record:
    the [try] block and its [catch]. It returns [true] when [movedCount++]
    was reached and [false] when the record was left ([continue], or the
    [catch] block). *)
Definition organize_record (baseDirectory : string) (file : FileInfo)
    : M FS bool :=
  try_catch
    (let category := getCategoryForExtension (extension file) in
     let categoryPath := baseDirectory ++ "/" ++ category in
     created <- createDirectoryIfNotExists categoryPath ;;
     if negb created then
       Logger_log ("ERROR: Failed to create directory: " ++ categoryPath) ;;
       ret false
     else
       let destPath := categoryPath ++ "/" ++ name file in
       ex <- exists_ destPath ;;
       if ex then
         Logger_log ("SKIPPED: File already exists: " ++ destPath) ;;
         ret false
       else
         rename (path file) destPath ;;
         Logger_log ("Moved: " ++ name file ++ " â†’ " ++ category ++ "/") ;;
         ret true)
    (fun what =>
       let errorMsg := "ERROR moving " ++ name file ++ ": " ++ what in
       Logger_log errorMsg ;;
       cerr_endl errorMsg ;;
       ret false).

(** The [for] loop of [organizeByExtension]; [movedCount] is the local
    counter, an [int] that grows by at most one per record and so stays in
    range for any collection of fewer than 2^31 records. *)
Fixpoint organize_loop (baseDirectory : string) (files : list FileInfo)
    (movedCount : Z) : M FS Z :=
  match files with
  | [] => ret movedCount
  | file :: rest =>
      moved <- organize_record baseDirectory file ;;
      organize_loop baseDirectory rest
        (if moved then movedCount + 1 else movedCount)%Z
  end.

(** [FileSorter::organizeByExtension] *)
Definition organizeByExtension (files : list FileInfo) (baseDirectory : string)
    : M FS Z :=
  Logger_log ("Starting file organization in: " ++ baseDirectory) ;;
  movedCount <- organize_loop baseDirectory files 0%Z ;;
  Logger_log ("Organization complete: " ++ to_string_int movedCount
              ++ " files moved") ;;
  ret movedCount.

(** *** [FileManager] *)

(** [FileManager::directoryExists] *)
Definition directoryExists (targetDirectory : string) : M FS bool :=
  try_catch
    (ex <- exists_ targetDirectory ;;
     if ex then is_directory targetDirectory else ret false)
    (fun what =>
       Logger_log ("ERROR checking directory: " ++ what) ;;
       ret false).

(** [filePath.filename().string()]: what follows the last separator. *)
Definition path_filename (filePath : string) : string :=
  match find_last_of "/" filePath with
  | Some i => substr (S i) filePath
  | None => filePath
  end.

(** [FileManager::getFileInfo] *)
Definition getFileInfo (filePath : string) : M FS FileInfo :=
  try_catch
    (let filename := path_filename filePath in
     let ext := extractExtension filename in
     fileSize <- file_size filePath ;;
     ret (FileInfo_make filename filePath ext fileSize))
    (fun what =>
       Logger_log ("ERROR reading file info: " ++ what) ;;
       ret FileInfo_default).

(** The body of the range-[for] of [scanDirectory], over the entries that
    the iterator yields. *)
Fixpoint scan_entries (entries : list string) : M FS unit :=
  match entries with
  | [] => ret tt
  | entry :: rest =>
      regular <- is_regular_file entry ;;
      (if regular then
         info <- getFileInfo entry ;;
         files_push_back info ;;
         Logger_log ("Found file: " ++ name info ++ " ("
                     ++ to_string (size info) ++ " bytes)")
       else ret tt) ;;
      scan_entries rest
  end.

(** [for (const auto& entry : fs::directory_iterator(targetDirectory))] *)
Definition scan_iteration (targetDirectory : string) : M FS unit :=
  fun w =>
    let '(entries, failure) := fs_directory_iterator (w_fs w) targetDirectory in
    (scan_entries entries ;;
     match failure with
     | Some what => throw what
     | None => ret tt
     end) w.

(** [FileManager::scanDirectory] *)
Definition scanDirectory (targetDirectory : string) : M FS Z :=
  files_clear ;;
  found <- directoryExists targetDirectory ;;
  if negb found then
    Logger_log "ERROR: Cannot scan non-existent directory" ;;
    ret 0%Z
  else
    try_catch
      (scan_iteration targetDirectory ;;
       n <- files_size ;;
       Logger_log ("Scan complete: " ++ to_string (N.of_nat n)
                   ++ " files found") ;;
       ret (static_cast_int n))
      (fun what =>
         let errorMsg := "ERROR scanning directory: " ++ what in
         Logger_log errorMsg ;;
         cerr_endl errorMsg ;;
         ret 0%Z).

End Engine.

(** ** [FileInfo::operator==] (FileInfo.h) *)

Definition FileInfo_eq (a b : FileInfo) : bool :=
  (size a =? size b)%N && String.eqb (name a) (name b).

(** ** The grouping loop of [FileSorter::displayCategories]

    [categoryGroups[cat].push_back(ext)] for every pair of the table, in
    key order; the decoration that the function prints around the groups
    is left out. *)

Definition push_back_under (categoryGroups : SMap.t (list string))
    (cat ext : string) : SMap.t (list string) :=
  match SMap.find cat categoryGroups with
  | Some extensions => SMap.add cat (push_back extensions ext) categoryGroups
  | None => SMap.add cat [ext] categoryGroups
  end.

Definition categoryGroups_of (table : SMap.t string) : SMap.t (list string) :=
  SMap.fold (fun ext cat categoryGroups =>
               push_back_under categoryGroups cat ext)
            table (SMap.empty (list string)).

(** ** [FileManager::FileManager] and the handlers of [Menu] that drive the
       engine (Menu.cpp)

    As for [handleSearchFiles] the console is left out. The [FileManager]
    that the menu holds is its [targetDirectory] together with the
    collection [w_files] of the state. *)

Record Menu : Type := mkMenu {
  fileManager_targetDirectory : string;
  currentDirectory : string;
  isRunning : bool
}.

Inductive organize_interaction : Type :=
| OrganizeNoFiles
| OrganizeCancelled
| Organized (movedCount : Z).

Section MenuHandlers.
Context {FS : Type} {FSI : FileSystem FS}.

(** [FileManager::FileManager(dirPath)]; the new object starts with an
    empty collection of its own. *)
Definition FileManager_new (dirPath : string) : M FS unit :=
  Logger_log ("FileManager initialized for directory: " ++ dirPath) ;;
  found <- directoryExists dirPath ;;
  if negb found then
    Logger_log ("WARNING: Directory does not exist: " ++ dirPath) ;;
    cerr_endl ("Warning: Directory '" ++ dirPath ++ "' does not exist!")
  else ret tt.

(** [fileManager->getFiles()] *)
Definition getFiles : M FS (list FileInfo) := fun w => (w, Returns (w_files w)).

(** [Menu::handleOrganizeFiles]; [confirm] is the line that the user
    typed at the prompt. *)
Definition handleOrganizeFiles (menu : Menu) (confirm : string)
    : M FS organize_interaction :=
  files <- getFiles ;;
  match files with
  | [] => ret OrganizeNoFiles
  | _ :: _ =>
      let confirm := transform tolower confirm in
      if negb (String.eqb confirm "yes") && negb (String.eqb confirm "y")
      then ret OrganizeCancelled
      else
        movedCount <- organizeByExtension files (currentDirectory menu) ;;
        scanDirectory (fileManager_targetDirectory menu) ;;
        ret (Organized movedCount)
  end.

(** [Menu::handleChangeDirectory]; [newDir] is the line that the user
    typed. It returns the menu as the handler leaves it. *)
Definition handleChangeDirectory (menu : Menu) (newDir : string)
    : M FS Menu :=
  if String.eqb newDir "" then ret menu
  else
    try_catch
      (FileManager_new newDir ;;
       found <- directoryExists newDir ;;
       if negb found then ret menu
       else
         files_clear ;;
         ret (mkMenu newDir newDir (isRunning menu)))
      (fun _ => ret menu).

End MenuHandlers.

(** ** Vocabulary of the properties *)

(** The test of the loop of [searchByName] on one record. *)
Definition name_matches (searchTerm : string) (file : FileInfo) : bool :=
  match string_find (toLowercase (name file)) (toLowercase searchTerm) with
  | Some _ => true
  | None => false
  end.

(** [file] has the fingerprint [h]. *)
Definition same_hash (h : string) (file : FileInfo) : bool :=
  String.eqb (generateSimpleHash file) h.

(** The target directory is missing when [directoryExists] answers no:
    one of its two tests fails or throws. *)
Definition directory_missing {FS : Type} {FSI : FileSystem FS}
    (s : FS) (targetDirectory : string) : Prop :=
  fs_exists s targetDirectory <> Returns true \/
  fs_is_directory s targetDirectory <> Returns true.

(** The target directory is unreadable when opening the iterator throws. *)
Definition directory_unreadable {FS : Type} {FSI : FileSystem FS}
    (s : FS) (targetDirectory : string) : Prop :=
  exists what, fs_directory_iterator s targetDirectory = ([], Some what).

(** The record that [getFileInfo] makes of a directory entry. *)
Definition scanned_record {FS : Type} {FSI : FileSystem FS}
    (s : FS) (entry : string) : FileInfo :=
  match fs_file_size s entry with
  | Returns fileSize =>
      FileInfo_make (path_filename entry) entry
        (extractExtension (path_filename entry)) fileSize
  | Throws _ => FileInfo_default
  end.

(** The entries that [is_regular_file] accepts. *)
Definition regular_entries {FS : Type} {FSI : FileSystem FS}
    (s : FS) (entries : list string) : list string :=
  filter (fun entry =>
            match fs_is_regular_file s entry with
            | Returns true => true
            | _ => false
            end) entries.

(** What every record made by a scan satisfies. *)
Definition well_formed_record (file : FileInfo) : Prop :=
  extension file = extractExtension (name file) /\
  hash file = "" /\
  (file = FileInfo_default \/ name file = path_filename (path file)).

(** [w'] is [w] after some logging: the messages and the lines on
    [std::cerr] that were there are still there, in front. *)
Definition only_logged {FS : Type} (w w' : world FS) : Prop :=
  (exists lines, w_log w' = (w_log w ++ lines)%list) /\
  (exists lines, w_cerr w' = (w_cerr w ++ lines)%list).

(** Every key of the table is a dot followed by lowercase text without
    dot: the form of the extensions that [extractExtension] produces. *)
Definition extension_form (ext : string) : bool :=
  match ext with
  | String c suffix =>
      Ascii.eqb c "." && negb (has_char "." suffix)
      && String.eqb (transform tolower suffix) suffix
  | EmptyString => false
  end.

(** The record [file] fails when the loop reaches it in the state [w],
    and [w'] is the state in which the loop body leaves it: the directory
    step answered no, or the existence test of the destination threw, or
    the move threw; in each case the error message is the last of the log. *)
Definition record_failure {FS : Type} {FSI : FileSystem FS}
    (baseDirectory : string) (file : FileInfo) (w w' : world FS) : Prop :=
  let categoryPath := categoryPath_of baseDirectory file in
  let destPath := destPath_of baseDirectory file in
  let errorMsg := fun what => "ERROR moving " ++ name file ++ ": " ++ what in
  (exists w1,
      createDirectoryIfNotExists categoryPath w = (w1, Returns false) /\
      w' = log_line w1 ("ERROR: Failed to create directory: " ++ categoryPath))
  \/
  (exists w1 what,
      createDirectoryIfNotExists categoryPath w = (w1, Returns true) /\
      fs_exists (w_fs w1) destPath = Throws what /\
      w' = cerr_line (log_line w1 (errorMsg what)) (errorMsg what))
  \/
  (exists w1 s2 what,
      createDirectoryIfNotExists categoryPath w = (w1, Returns true) /\
      fs_exists (w_fs w1) destPath = Returns false /\
      fs_rename (w_fs w1) (path file) destPath = (s2, Throws what) /\
      w' = cerr_line (log_line (set_fs w1 s2) (errorMsg what)) (errorMsg what)).

(** The three shapes of a file name, by its dots. *)
Definition no_dot (filename : string) : Prop :=
  has_char "." filename = false.

Definition leading_dot_only (filename : string) : Prop :=
  exists rest, filename = String "." rest /\ has_char "." rest = false.

Definition stem_dot_suffix (filename stem suffix : string) : Prop :=
  stem <> "" /\ filename = stem ++ String "." suffix /\
  has_char "." suffix = false.

(** ** A filesystem in memory

    An instance of the interface on which the engine can be run: a table
    from paths to nodes, and a list of paths on which every change is
    refused. A path is reached through its ancestors, which must all be
    directories, as path resolution does. *)

Module MemFS.

Inductive node : Type :=
| RegularFile (content : string)
| Directory.

Record t : Type := mk {
  nodes : list (string * node);   (* the first binding of a path counts *)
  denied : list string
}.

Fixpoint lookup (p : string) (l : list (string * node)) : option node :=
  match l with
  | [] => None
  | (q, n) :: l' => if String.eqb q p then Some n else lookup p l'
  end.

Definition remove (p : string) (l : list (string * node))
    : list (string * node) :=
  filter (fun kv => negb (String.eqb (fst kv) p)) l.

Definition mem (p : string) (l : list string) : bool :=
  existsb (String.eqb p) l.

(** The ancestors of [p]: every [d] with [p = d ++ "/" ++ rest]. *)
Fixpoint slash_prefixes (p : string) : list string :=
  match p with
  | EmptyString => []
  | String c p' =>
      ((if Ascii.eqb c "/" then [""] else [])
       ++ map (String c) (slash_prefixes p'))%list
  end.

Definition is_dir (s : t) (q : string) : bool :=
  match lookup q (nodes s) with
  | Some Directory => true
  | _ => false
  end.

Definition is_file (s : t) (q : string) : bool :=
  match lookup q (nodes s) with
  | Some (RegularFile _) => true
  | _ => false
  end.

Definition reachable (s : t) (p : string) : bool :=
  forallb (fun q => String.eqb q "" || is_dir s q) (slash_prefixes p).

Definition present (s : t) (p : string) : bool :=
  reachable s p &&
  match lookup p (nodes s) with
  | Some _ => true
  | None => false
  end.

(** [q] lies directly in the directory [d]. *)
Definition child_of (d q : string) : bool :=
  match find_last_of "/" q with
  | Some i => String.eqb (String.substring 0 i q) d
  | None => false
  end.

Definition m_exists (s : t) (p : string) : outcome bool :=
  Returns (present s p).

Definition m_is_directory (s : t) (p : string) : outcome bool :=
  Returns (reachable s p && is_dir s p).

Definition m_is_regular_file (s : t) (p : string) : outcome bool :=
  Returns (reachable s p && is_file s p).

Definition m_file_size (s : t) (p : string) : outcome N :=
  if reachable s p then
    match lookup p (nodes s) with
    | Some (RegularFile content) => Returns (N.of_nat (String.length content))
    | Some Directory => Throws "Is a directory"
    | None => Throws "No such file or directory"
    end
  else Throws "No such file or directory".

Definition m_directory_iterator (s : t) (d : string)
    : list string * option string :=
  if mem d (denied s) then ([], Some "Permission denied")
  else if reachable s d && is_dir s d
       then (map fst (filter (fun kv => child_of d (fst kv)) (nodes s)), None)
       else ([], Some "No such file or directory").

Definition m_create_directories (s : t) (p : string) : t * outcome bool :=
  let chain := (slash_prefixes p ++ [p])%list in
  if existsb (fun q => mem q (denied s)) chain then
    (s, Throws "Permission denied")
  else if existsb (is_file s) chain then
    (s, Throws "Not a directory")
  else if present s p then (s, Returns false)
  else
    (mk (fold_left
           (fun l q =>
              match lookup q l with
              | Some _ => l
              | None => if String.eqb q "" then l else (q, Directory) :: l
              end)
           chain (nodes s))
        (denied s),
     Returns true).

Definition m_rename (s : t) (from to : string) : t * outcome unit :=
  if mem from (denied s) || mem to (denied s) then
    (s, Throws "Permission denied")
  else if reachable s from && reachable s to then
    match lookup from (nodes s) with
    | Some n =>
        (mk ((to, n) :: remove to (remove from (nodes s))) (denied s),
         Returns tt)
    | None => (s, Throws "No such file or directory")
    end
  else (s, Throws "No such file or directory").

End MemFS.

#[export] Instance MemFS_FileSystem : FileSystem MemFS.t := {|
  fs_exists := MemFS.m_exists;
  fs_is_directory := MemFS.m_is_directory;
  fs_is_regular_file := MemFS.m_is_regular_file;
  fs_file_size := MemFS.m_file_size;
  fs_directory_iterator := MemFS.m_directory_iterator;
  fs_create_directories := MemFS.m_create_directories;
  fs_rename := MemFS.m_rename
|}.

(** A small tree used to run the engine: the directory "base" holds the
    files "a.txt", "b.jpg", "c.zip" and "notes" and the directory
    "private"; "base/Documents" already holds an "a.txt". Nothing may be
    changed at "base/Images", "base/notes" may not be moved, and
    "base/private" cannot be opened. *)
Definition sample_fs : MemFS.t :=
  MemFS.mk
    [ ("base", MemFS.Directory);
      ("base/a.txt", MemFS.RegularFile "new text");
      ("base/b.jpg", MemFS.RegularFile "pixels");
      ("base/c.zip", MemFS.RegularFile "packed");
      ("base/notes", MemFS.RegularFile "todo");
      ("base/private", MemFS.Directory);
      ("base/Documents", MemFS.Directory);
      ("base/Documents/a.txt", MemFS.RegularFile "old text") ]
    [ "base/Images"; "base/notes"; "base/private" ].

Definition sample_world : world MemFS.t := mkWorld sample_fs [] [] [].

Definition sample_a : FileInfo := FileInfo_make "a.txt" "base/a.txt" ".txt" 8.
Definition sample_b : FileInfo := FileInfo_make "b.jpg" "base/b.jpg" ".jpg" 6.
Definition sample_c : FileInfo := FileInfo_make "c.zip" "base/c.zip" ".zip" 6.
Definition sample_notes : FileInfo := FileInfo_make "notes" "base/notes" "" 4.

(** The same filesystem behind a directory stream that breaks after a
    given number of entries. *)
Record FlakyFS : Type := mkFlaky {
  flaky_fs : MemFS.t;
  flaky_after : nat
}.

Definition flaky_directory_iterator (s : FlakyFS) (d : string)
    : list string * option string :=
  match MemFS.m_directory_iterator (flaky_fs s) d with
  | (entries, Some what) => (entries, Some what)
  | (entries, None) =>
      if (flaky_after s <? length entries)%nat
      then (firstn (flaky_after s) entries, Some "Input/output error")
      else (entries, None)
  end.

#[export] Instance FlakyFS_FileSystem : FileSystem FlakyFS := {|
  fs_exists := fun s => MemFS.m_exists (flaky_fs s);
  fs_is_directory := fun s => MemFS.m_is_directory (flaky_fs s);
  fs_is_regular_file := fun s => MemFS.m_is_regular_file (flaky_fs s);
  fs_file_size := fun s => MemFS.m_file_size (flaky_fs s);
  fs_directory_iterator := flaky_directory_iterator;
  fs_create_directories := fun s p =>
    match MemFS.m_create_directories (flaky_fs s) p with
    | (s', r) => (mkFlaky s' (flaky_after s), r)
    end;
  fs_rename := fun s from to =>
    match MemFS.m_rename (flaky_fs s) from to with
    | (s', r) => (mkFlaky s' (flaky_after s), r)
    end
|}.

(** The sample tree, read through a stream that breaks after two
    entries, and the sample state once "base" has been scanned. *)
Definition flaky_world : world FlakyFS :=
  mkWorld (mkFlaky sample_fs 2) [] [] [].

Definition scanned_world : world MemFS.t :=
  mkWorld sample_fs [] [] [sample_a; sample_b; sample_c; sample_notes].

(** A collection for the searches: three names hold "rep" in some letter
    case, two of them hold "report". *)
Definition report_txt : FileInfo :=
  FileInfo_make "report.txt" "docs/report.txt" ".txt" 120.
Definition report_2024 : FileInfo :=
  FileInfo_make "Report_2024.pdf" "docs/Report_2024.pdf" ".pdf" 4096.
Definition reply_doc : FileInfo :=
  FileInfo_make "REPLY.doc" "docs/REPLY.doc" ".doc" 77.
Definition summary_doc : FileInfo :=
  FileInfo_make "summary.doc" "docs/summary.doc" ".doc" 300.
Definition report_files : list FileInfo :=
  [report_txt; report_2024; summary_doc; reply_doc].

(* ===================================================================== *)
(** * Part II: properties                                                 *)
(* ===================================================================== *)

(** ** Strings *)

Lemma find_last_of_none (c : ascii) (s : string) :
  find_last_of c s = None <-> has_char c s = false.
Proof.
  induction s as [|a s IH]; simpl; [tauto|].
  destruct (find_last_of c s) as [i|].
  - split; [discriminate|]. intros H. apply orb_false_iff in H.
    destruct H as [_ H]. apply IH in H. discriminate.
  - destruct (Ascii.eqb a c); simpl; [split; discriminate|].
    split; intros _; [now apply IH | reflexivity].
Qed.

Lemma find_last_of_app (c : ascii) (pre suf : string) :
  has_char c suf = false ->
  find_last_of c (pre ++ String c suf) = Some (String.length pre).
Proof.
  intros Hsuf. induction pre as [|a pre IH]; simpl.
  - apply find_last_of_none in Hsuf. rewrite Hsuf, Ascii.eqb_refl. reflexivity.
  - rewrite IH. reflexivity.
Qed.

Lemma substr_app (pre s : string) : substr (String.length pre) (pre ++ s) = s.
Proof. induction pre as [|a pre IH]; simpl; [now destruct s | exact IH]. Qed.

Lemma tolower_idempotent (c : ascii) : tolower (tolower c) = tolower c.
Proof.
  destruct c as [[] [] [] [] [] [] [] []]; reflexivity.
Qed.

Lemma toLowercase_idempotent (s : string) :
  toLowercase (toLowercase s) = toLowercase s.
Proof.
  unfold toLowercase. induction s as [|c s IH]; simpl; [reflexivity|].
  now rewrite tolower_idempotent, IH.
Qed.

(** ** Extension extraction *)

(** With a non-empty stem before the last dot, the extension is the
    lowercased text from that dot on. *)
Lemma extractExtension_last_dot (stem suffix : string) :
  stem <> "" ->
  has_char "." suffix = false ->
  extractExtension (stem ++ String "." suffix)
  = String "." (transform tolower suffix).
Proof.
  intros Hstem Hsuf. unfold extractExtension.
  rewrite find_last_of_app by assumption.
  destruct stem as [|a stem]; [contradiction|].
  change (0 <? String.length (String a stem))%nat with true. cbv iota.
  rewrite substr_app. reflexivity.
Qed.

(** Without any dot there is no extension. *)
Lemma extractExtension_no_dot (filename : string) :
  has_char "." filename = false -> extractExtension filename = "".
Proof.
  intros H. unfold extractExtension.
  apply find_last_of_none in H. now rewrite H.
Qed.

(** A name whose only dot is its first character has no extension: the
    guard [dotPos > 0] sends it to the final [return ""]. *)
Lemma extractExtension_leading_dot_only (rest : string) :
  has_char "." rest = false -> extractExtension (String "." rest) = "".
Proof.
  intros H. apply find_last_of_none in H.
  unfold extractExtension. simpl find_last_of. rewrite H. reflexivity.
Qed.

(** C1. On the four names of the examples, [extractExtension] yields
    ".txt" for "file.txt", ".gz" for "archive.tar.gz" and "" for "README",
    but for ".gitignore" it yields "" and not ".gitignore". *)
Theorem extractExtension_examples :
  extractExtension "file.txt" = ".txt" /\
  extractExtension "archive.tar.gz" = ".gz" /\
  extractExtension "README" = "" /\
  extractExtension ".gitignore" = "" /\
  extractExtension ".gitignore" <> ".gitignore".
Proof. repeat split; try reflexivity. discriminate. Qed.

(** ** The fingerprint *)

Lemma string_of_uint_digits (d : Decimal.uint) :
  has_char "_" (NilEmpty.string_of_uint d) = false.
Proof. induction d; simpl; auto. Qed.

Lemma to_string_no_underscore (n : N) : has_char "_" (to_string n) = false.
Proof. apply string_of_uint_digits. Qed.

Lemma to_string_inj (m n : N) : to_string m = to_string n -> m = n.
Proof.
  unfold to_string. intros H.
  assert (Hu : N.to_uint m = N.to_uint n).
  { apply (f_equal NilEmpty.uint_of_string) in H.
    rewrite !NilEmpty.usu in H. now injection H. }
  apply (f_equal N.of_uint) in Hu.
  now rewrite !DecimalN.Unsigned.of_to in Hu.
Qed.

(** Two texts cut at a separator that neither left part contains agree
    only when both parts agree. *)
Lemma split_at_separator (c : ascii) (a b x y : string) :
  has_char c a = false ->
  has_char c b = false ->
  a ++ String c x = b ++ String c y ->
  a = b /\ x = y.
Proof.
  revert b. induction a as [|a0 a IH]; intros [|b0 b] Ha Hb H; simpl in *.
  - injection H as ->. auto.
  - injection H as H0 _. subst b0. rewrite Ascii.eqb_refl in Hb. discriminate.
  - injection H as H0 _. subst a0. rewrite Ascii.eqb_refl in Ha. discriminate.
  - injection H as -> H. apply orb_false_iff in Ha, Hb.
    destruct (IH b (proj2 Ha) (proj2 Hb) H) as [-> ->]. auto.
Qed.

Lemma generateSimpleHash_inj (f1 f2 : FileInfo) :
  generateSimpleHash f1 = generateSimpleHash f2 <->
  size f1 = size f2 /\ name f1 = name f2.
Proof.
  unfold generateSimpleHash. split.
  - intros H.
    destruct (split_at_separator "_" _ _ _ _
                (to_string_no_underscore _) (to_string_no_underscore _) H)
      as [Hs Hn].
    split; [now apply to_string_inj | exact Hn].
  - intros [-> ->]. reflexivity.
Qed.

(** C10. [generateSimpleHash] gives two records the same fingerprint
    exactly when they have the same size and the same name; the decimal
    rendering of the size holds no ['_'], so the first ['_'] of a
    fingerprint separates the size from the name. *)
Theorem generateSimpleHash_injective :
  (forall n : N, has_char "_" (to_string n) = false) /\
  (forall f1 f2 : FileInfo,
      generateSimpleHash f1 = generateSimpleHash f2 <->
      size f1 = size f2 /\ name f1 = name f2).
Proof. split; [exact to_string_no_underscore | exact generateSimpleHash_inj]. Qed.

(** ** The category table *)

Lemma find_after_assignments (ext : string) (l : list (string * string))
    (m : SMap.t string) :
  ~ In ext (map fst l) ->
  SMap.find ext (fold_left (fun acc kv => assign (fst kv) (snd kv) acc) l m)
  = SMap.find ext m.
Proof.
  revert m. induction l as [|[k v] l IH]; intros m Hnot; simpl in *.
  - reflexivity.
  - rewrite IH by tauto. unfold assign. rewrite SMapF.add_o.
    destruct (SMap.E.eq_dec k ext) as [E|_]; [|reflexivity].
    exfalso. apply Hnot. left. exact E.
Qed.

Lemma assignments_found :
  forallb (fun kv =>
             match SMap.find (fst kv) extensionCategories with
             | Some cat => String.eqb cat (snd kv)
             | None => false
             end)
          category_assignments = true.
Proof. vm_compute. reflexivity. Qed.

(** C5. For every extension of the fixed table [getCategoryForExtension]
    returns the category the table gives it; for every extension that is
    not in the table, the empty string among them, it returns "Others". *)
Theorem getCategoryForExtension_total :
  (forall ext cat : string,
      In (ext, cat) category_assignments ->
      SMap.find ext extensionCategories = Some cat /\
      getCategoryForExtension ext = cat) /\
  (forall ext : string,
      ~ In ext (map fst category_assignments) ->
      SMap.find ext extensionCategories = None /\
      getCategoryForExtension ext = "Others") /\
  getCategoryForExtension "" = "Others".
Proof.
  split; [|split].
  - intros ext cat Hin.
    pose proof assignments_found as H.
    rewrite forallb_forall in H. specialize (H _ Hin). simpl in H.
    unfold getCategoryForExtension.
    destruct (SMap.find ext extensionCategories) as [c|]; [|discriminate].
    apply String.eqb_eq in H. subst c. auto.
  - intros ext Hnot.
    assert (E : SMap.find ext extensionCategories = None).
    { unfold extensionCategories, initializeCategories.
      rewrite find_after_assignments by assumption. apply SMapF.empty_o. }
    split; [exact E|]. unfold getCategoryForExtension. now rewrite E.
  - reflexivity.
Qed.

(** ** Name search *)

Lemma prefix_app (p s : string) :
  String.prefix p s = true <-> exists post, s = p ++ post.
Proof.
  revert s. induction p as [|a p IH]; intros s; simpl.
  - split; [intros _; now exists s | intros _; now destruct s].
  - destruct s as [|b s]; cbn [String.prefix].
    + split; [discriminate | intros [post H]; discriminate].
    + destruct (ascii_dec a b) as [->|Hne].
      * split.
        -- intros H. apply IH in H. destruct H as [post H].
           exists post. now rewrite H.
        -- intros [post H]. injection H as H. apply IH. now exists post.
      * split; [discriminate|]. intros [post H]. injection H as H _.
        now elim Hne.
Qed.

(** [s.find(pat) != npos] exactly when [pat] is a substring of [s]. *)
Lemma string_find_contains (s pat : string) :
  (exists i, string_find s pat = Some i) <->
  (exists pre post, s = pre ++ pat ++ post).
Proof.
  unfold string_find. induction s as [|b s IH].
  - simpl. destruct pat as [|a pat].
    + split; [intros _; now exists "", "" | intros _; now exists 0%nat].
    + split; [intros [i H]; discriminate|].
      intros [[|c pre] [post H]]; discriminate.
  - cbn [String.index].
    destruct (String.prefix pat (String b s)) eqn:Hp.
    + split; [|intros _; now exists 0%nat]. intros _.
      apply prefix_app in Hp. destruct Hp as [post Hp].
      exists "", post. exact Hp.
    + split.
      * intros [i H]. destruct (String.index 0 pat s) as [n|] eqn:E;
          [|discriminate].
        destruct (proj1 IH (ex_intro _ n eq_refl)) as [pre [post Hs]].
        exists (String b pre), post. simpl. now rewrite Hs.
      * intros [[|c pre] [post Hs]].
        -- simpl in Hs. assert (Hp' : String.prefix pat (String b s) = true)
             by (apply prefix_app; now exists post).
           congruence.
        -- simpl in Hs. injection Hs as _ Hs.
           destruct (proj2 IH (ex_intro _ pre (ex_intro _ post Hs))) as [n Hn].
           rewrite Hn. now exists (S n).
Qed.

Lemma name_matches_iff (searchTerm : string) (file : FileInfo) :
  name_matches searchTerm file = true <->
  exists pre post,
    toLowercase (name file) = pre ++ toLowercase searchTerm ++ post.
Proof.
  rewrite <- string_find_contains. unfold name_matches.
  destruct (string_find _ _) as [i|].
  - split; [intros _; now exists i | reflexivity].
  - split; [discriminate | intros [i H]; discriminate].
Qed.

Lemma searchByName_loop_filter (searchTerm : string) (files results : list FileInfo)
    (log : list string) :
  searchByName_loop (toLowercase searchTerm) files results log
  = ((results ++ filter (name_matches searchTerm) files)%list,
     (log ++ map (fun f => ("Match found: " ++ name f)%string)
                 (filter (name_matches searchTerm) files))%list).
Proof.
  revert results log. induction files as [|f files IH]; intros results log.
  - simpl. now rewrite !app_nil_r.
  - cbn [searchByName_loop filter].
    assert (E : name_matches searchTerm f
                = match string_find (toLowercase (name f))
                          (toLowercase searchTerm) with
                  | Some _ => true
                  | None => false
                  end) by reflexivity.
    revert E.
    destruct (string_find (toLowercase (name f)) (toLowercase searchTerm));
      intros ->.
    + rewrite IH. unfold push_back. cbn [map]. now rewrite <- !app_assoc.
    + apply IH.
Qed.

Lemma searchByName_results (files : list FileInfo) (searchTerm : string) :
  fst (searchByName files searchTerm) = filter (name_matches searchTerm) files.
Proof.
  unfold searchByName. rewrite searchByName_loop_filter. reflexivity.
Qed.

Lemma name_matches_empty (file : FileInfo) : name_matches "" file = true.
Proof.
  apply name_matches_iff. exists "", (toLowercase (name file)). reflexivity.
Qed.

(** The letter case of the term has no influence on the records found. *)
Lemma searchByName_term_case (files : list FileInfo) (searchTerm : string) :
  fst (searchByName files (toLowercase searchTerm))
  = fst (searchByName files searchTerm).
Proof.
  rewrite !searchByName_results. apply filter_ext. intros file.
  unfold name_matches. now rewrite toLowercase_idempotent.
Qed.

(** C6. [searchByName] keeps, in input order, exactly the records whose
    lowercased name contains the lowercased term, so that the letter case
    of the term does not matter; for the term "REPORT" and the names
    "report.txt", "Report_2024.pdf", "summary.doc" it returns the first two
    records, in that order. *)
Theorem searchByName_case_insensitive :
  (forall (files : list FileInfo) (searchTerm : string),
      fst (searchByName files searchTerm)
      = filter (name_matches searchTerm) files) /\
  (forall (files : list FileInfo) (searchTerm : string),
      fst (searchByName files (toLowercase searchTerm))
      = fst (searchByName files searchTerm)) /\
  (forall (searchTerm : string) (file : FileInfo),
      name_matches searchTerm file = true <->
      exists pre post,
        toLowercase (name file) = pre ++ toLowercase searchTerm ++ post) /\
  (forall (p1 p2 p3 e1 e2 e3 h1 h2 h3 : string) (s1 s2 s3 : N),
      let r1 := mkFileInfo "report.txt" p1 e1 s1 h1 in
      let r2 := mkFileInfo "Report_2024.pdf" p2 e2 s2 h2 in
      let r3 := mkFileInfo "summary.doc" p3 e3 s3 h3 in
      fst (searchByName [r1; r2; r3] "REPORT") = [r1; r2]).
Proof.
  split; [exact searchByName_results|].
  split; [exact searchByName_term_case|].
  split; [exact name_matches_iff|].
  intros. rewrite searchByName_results. reflexivity.
Qed.

(** C8. With the empty term [searchByName] returns every record of the
    collection, in order; it is [Menu::handleSearchFiles] that refuses the
    empty term, before the searcher is called, and hands every other term
    to the searcher. *)
Theorem searchByName_empty_term :
  (forall files : list FileInfo, fst (searchByName files "") = files) /\
  (forall (file : FileInfo) (files : list FileInfo),
      handleSearchFiles (file :: files) "" = EmptyTermRejected) /\
  (forall (file : FileInfo) (files : list FileInfo) (searchTerm : string),
      searchTerm <> "" ->
      handleSearchFiles (file :: files) searchTerm
      = Searched (fst (searchByName (file :: files) searchTerm))
                 (snd (searchByName (file :: files) searchTerm))).
Proof.
  split; [|split].
  - intros files. rewrite searchByName_results.
    induction files as [|f files IH]; [reflexivity|].
    cbn [filter]. rewrite name_matches_empty. now rewrite IH.
  - reflexivity.
  - intros file files searchTerm Hne. unfold handleSearchFiles.
    destruct (String.eqb searchTerm "") eqn:E.
    + apply String.eqb_eq in E. contradiction.
    + now destruct (searchByName (file :: files) searchTerm).
Qed.

(** ** Duplicate groups *)

Lemma find_push_back_at (m : SMap.t (list FileInfo)) (k h : string)
    (file : FileInfo) :
  SMap.find h (push_back_at m k file)
  = if String.eqb k h
    then Some (match SMap.find h m with
               | Some group => push_back group file
               | None => [file]
               end)
    else SMap.find h m.
Proof.
  unfold push_back_at.
  destruct (String.eqb k h) eqn:E.
  - apply String.eqb_eq in E. subst k.
    destruct (SMap.find h m); now rewrite SMapF.add_eq_o.
  - apply String.eqb_neq in E.
    destruct (SMap.find k m); now rewrite SMapF.add_neq_o.
Qed.

Lemma find_fold_push_back (files : list FileInfo) (m : SMap.t (list FileInfo))
    (h : string) :
  SMap.find h
    (fold_left (fun hashGroups file =>
                  push_back_at hashGroups (generateSimpleHash file) file)
               files m)
  = match SMap.find h m, filter (same_hash h) files with
    | Some g0, g => Some (g0 ++ g)%list
    | None, [] => None
    | None, g => Some g
    end.
Proof.
  revert m. induction files as [|f files IH]; intros m.
  - simpl. destruct (SMap.find h m); [now rewrite app_nil_r | reflexivity].
  - cbn [fold_left filter]. rewrite IH, find_push_back_at.
    change (String.eqb (generateSimpleHash f) h) with (same_hash h f).
    destruct (same_hash h f).
    + destruct (SMap.find h m) as [g0|]; unfold push_back.
      * now rewrite <- app_assoc.
      * reflexivity.
    + reflexivity.
Qed.

Lemma find_group_by_hash (files : list FileInfo) (h : string) :
  SMap.find h (group_by_hash files)
  = match filter (same_hash h) files with
    | [] => None
    | g => Some g
    end.
Proof.
  unfold group_by_hash. rewrite find_fold_push_back, SMapF.empty_o.
  reflexivity.
Qed.

(** The map that [keep_duplicates] builds is the filter of the Standard
    Library on the size test; the log does not influence it. *)
Lemma keep_duplicates_filter (m : SMap.t (list FileInfo)) (log : list string) :
  fst (keep_duplicates m log)
  = SMapP.filter (fun _ group => (2 <=? length group)%nat) m.
Proof.
  unfold keep_duplicates, SMapP.filter. rewrite !SMap.fold_1.
  generalize (SMap.empty (list FileInfo)) as acc. revert log.
  induction (SMap.elements m) as [|[k g] l IH]; intros log acc.
  - reflexivity.
  - cbn [fold_left fst snd].
    destruct (2 <=? length g)%nat; apply IH.
Qed.

Lemma find_filter (f : string -> list FileInfo -> bool)
    (m : SMap.t (list FileInfo)) (h : string) :
  SMap.find h (SMapP.filter f m)
  = match SMap.find h m with
    | Some g => if f h g then Some g else None
    | None => None
    end.
Proof.
  assert (Hf : Proper (eq ==> eq ==> eq) f)
    by (intros ? ? -> ? ? ->; reflexivity).
  destruct (SMap.find h (SMapP.filter f m)) as [g|] eqn:E.
  - apply SMapF.find_mapsto_iff, (SMapP.filter_iff Hf) in E.
    destruct E as [E1 E2]. apply SMapF.find_mapsto_iff in E1.
    now rewrite E1, E2.
  - destruct (SMap.find h m) as [g|] eqn:E1; [|reflexivity].
    destruct (f h g) eqn:E2; [|reflexivity].
    assert (H : SMap.MapsTo h g (SMapP.filter f m)).
    { apply (SMapP.filter_iff Hf). split; [|exact E2].
      now apply SMapF.find_mapsto_iff. }
    apply SMapF.find_mapsto_iff in H. congruence.
Qed.

Lemma fst_findDuplicates (files : list FileInfo) :
  fst (findDuplicates files)
  = SMapP.filter (fun _ group => (2 <=? length group)%nat)
                 (group_by_hash files).
Proof.
  unfold findDuplicates.
  rewrite <- (keep_duplicates_filter (group_by_hash files)
                ["Starting duplicate detection on "
                 ++ to_string (N.of_nat (length files)) ++ " files"]).
  now destruct (keep_duplicates _ _).
Qed.

(** The group that [findDuplicates] exposes under a fingerprint. *)
Lemma find_findDuplicates (files : list FileInfo) (h : string) :
  SMap.find h (fst (findDuplicates files))
  = let group := filter (same_hash h) files in
    if (2 <=? length group)%nat then Some group else None.
Proof.
  rewrite fst_findDuplicates, find_filter, find_group_by_hash.
  cbv zeta. destruct (filter (same_hash h) files) as [|a [|b g]]; reflexivity.
Qed.

Lemma NoDup_map_transfer {A B C : Type} (f : A -> B) (g : A -> C)
    (l : list A) :
  (forall x y, g x = g y -> f x = f y) ->
  NoDup (map f l) -> NoDup (map g l).
Proof.
  intros Hfg. induction l as [|a l IH]; intros H; simpl in *.
  - constructor.
  - inversion H as [|? ? Hnot Hnd]; subst. constructor; [|now apply IH].
    intros Hin. apply Hnot. apply in_map_iff in Hin.
    destruct Hin as [x [Hx Hin]]. apply in_map_iff. exists x.
    split; [now apply Hfg | exact Hin].
Qed.

Lemma filter_none {A : Type} (p : A -> bool) (l : list A) :
  (forall x, In x l -> p x = false) -> filter p l = [].
Proof.
  induction l as [|a l IH]; intros H; simpl; [reflexivity|].
  rewrite (H a (or_introl eq_refl)). apply IH. intros x Hx. apply H. now right.
Qed.

Lemma same_hash_at_most_once (files : list FileInfo) (h : string) :
  NoDup (map generateSimpleHash files) ->
  (length (filter (same_hash h) files) <= 1)%nat.
Proof.
  induction files as [|f files IH]; intros H; simpl; [lia|].
  inversion H as [|? ? Hnot Hnd]; subst.
  destruct (same_hash h f) eqn:E; [|now apply IH].
  rewrite filter_none; [simpl; lia|].
  intros x Hx. destruct (same_hash h x) eqn:Ex; [|reflexivity].
  exfalso. apply Hnot. unfold same_hash in *.
  apply String.eqb_eq in E, Ex. rewrite E, <- Ex. now apply in_map.
Qed.

Lemma filter_at_least_one {A : Type} (p : A -> bool) (l : list A) (x : A) :
  In x l -> p x = true -> (1 <= length (filter p l))%nat.
Proof.
  intros Hin Hp. assert (H : In x (filter p l)) by (apply filter_In; auto).
  destruct (filter p l); [contradiction | simpl; lia].
Qed.

Lemma filter_at_least_two {A : Type} (p : A -> bool) (l : list A)
    (i j : nat) (x y : A) :
  i <> j ->
  nth_error l i = Some x -> nth_error l j = Some y ->
  p x = true -> p y = true ->
  (2 <= length (filter p l))%nat.
Proof.
  revert i j. induction l as [|a l IH]; intros i j Hij Hi Hj Hx Hy.
  - destruct i; discriminate.
  - destruct i as [|i], j as [|j]; simpl in Hi, Hj.
    + contradiction.
    + injection Hi as ->. simpl. rewrite Hx. simpl.
      apply nth_error_In in Hj.
      pose proof (filter_at_least_one p l y Hj Hy). lia.
    + injection Hj as ->. simpl. rewrite Hy. simpl.
      apply nth_error_In in Hi.
      pose proof (filter_at_least_one p l x Hi Hx). lia.
    + assert (H : (2 <= length (filter p l))%nat)
        by (apply (IH i j); auto).
      simpl. destruct (p a); simpl; lia.
Qed.

Lemma same_hash_size_name (f1 f : FileInfo) :
  same_hash (generateSimpleHash f1) f
  = (size f =? size f1)%N && String.eqb (name f) (name f1).
Proof.
  unfold same_hash.
  destruct (String.eqb (generateSimpleHash f) (generateSimpleHash f1)) eqn:E.
  - apply String.eqb_eq, generateSimpleHash_inj in E. destruct E as [-> ->].
    now rewrite N.eqb_refl, String.eqb_refl.
  - apply String.eqb_neq in E. symmetry. apply andb_false_iff.
    destruct (size f =? size f1)%N eqn:Es; [|now left].
    destruct (String.eqb (name f) (name f1)) eqn:En; [|now right].
    exfalso. apply E. apply generateSimpleHash_inj.
    split; [now apply N.eqb_eq | now apply String.eqb_eq].
Qed.

(** C4. [findDuplicates] exposes only groups of two or more records; when
    the [(size, name)] pairs of the records are pairwise distinct the result
    is empty; and two records (at two positions of the input) with the same
    size and the same name are both in the group stored under their common
    fingerprint, which holds exactly the records of that size and name in
    input order, and they are in no group stored under another key. *)
Theorem findDuplicates_groups (files : list FileInfo) :
  let duplicates := fst (findDuplicates files) in
  (forall (h : string) (group : list FileInfo),
      SMap.find h duplicates = Some group -> (2 <= length group)%nat) /\
  (NoDup (map (fun f => (size f, name f)) files) ->
   SMap.is_empty duplicates = true) /\
  (forall (i j : nat) (f1 f2 : FileInfo),
      i <> j ->
      nth_error files i = Some f1 ->
      nth_error files j = Some f2 ->
      size f1 = size f2 ->
      name f1 = name f2 ->
      generateSimpleHash f2 = generateSimpleHash f1 /\
      exists group,
        SMap.find (generateSimpleHash f1) duplicates = Some group /\
        group = filter (fun f => (size f =? size f1)%N
                                 && String.eqb (name f) (name f1)) files /\
        In f1 group /\ In f2 group /\
        (forall (h' : string) (group' : list FileInfo),
            SMap.find h' duplicates = Some group' ->
            In f1 group' \/ In f2 group' ->
            h' = generateSimpleHash f1)).
Proof.
  cbv zeta. split; [|split].
  - intros h group H. rewrite find_findDuplicates in H. cbv zeta in H.
    destruct (2 <=? length (filter (same_hash h) files))%nat eqn:E;
      [|discriminate].
    injection H as <-. now apply Nat.leb_le.
  - intros Hnd. apply SMapF.is_empty_iff. intros h group Hm.
    apply SMapF.find_mapsto_iff in Hm.
    rewrite find_findDuplicates in Hm. cbv zeta in Hm.
    assert (Hh : NoDup (map generateSimpleHash files)).
    { apply (NoDup_map_transfer (fun f => (size f, name f))); [|exact Hnd].
      intros x y Hxy. apply generateSimpleHash_inj in Hxy.
      destruct Hxy as [-> ->]. reflexivity. }
    pose proof (same_hash_at_most_once files h Hh) as Hle.
    destruct (2 <=? length (filter (same_hash h) files))%nat eqn:E;
      [|discriminate].
    apply Nat.leb_le in E. lia.
  - intros i j f1 f2 Hij Hi Hj Hs Hn.
    assert (Hh : generateSimpleHash f2 = generateSimpleHash f1)
      by (apply generateSimpleHash_inj; auto).
    split; [exact Hh|].
    set (h := generateSimpleHash f1) in *.
    assert (H1 : same_hash h f1 = true) by apply String.eqb_refl.
    assert (H2 : same_hash h f2 = true)
      by (unfold same_hash; rewrite Hh; apply String.eqb_refl).
    exists (filter (same_hash h) files). repeat split.
    + rewrite find_findDuplicates. cbv zeta.
      pose proof (filter_at_least_two (same_hash h) files i j f1 f2
                    Hij Hi Hj H1 H2) as Hlen.
      apply Nat.leb_le in Hlen. now rewrite Hlen.
    + apply filter_ext. intros f. apply same_hash_size_name.
    + apply filter_In. split; [now apply nth_error_In with i | exact H1].
    + apply filter_In. split; [now apply nth_error_In with j | exact H2].
    + intros h' group' Hf Hin. rewrite find_findDuplicates in Hf.
      cbv zeta in Hf.
      destruct (2 <=? length (filter (same_hash h') files))%nat;
        [|discriminate].
      injection Hf as <-.
      destruct Hin as [Hin|Hin]; apply filter_In in Hin;
        destruct Hin as [_ Hin]; unfold same_hash in Hin;
        apply String.eqb_eq in Hin; subst h; congruence.
Qed.

(** ** The reorganizer *)

Section Reorganizer.
Context {FS : Type} {FSI : FileSystem FS}.

(** What each call of [createDirectoryIfNotExists] does, by the answers of
    the filesystem. *)
Lemma createDirectoryIfNotExists_run (path : string) (w : world FS) :
  createDirectoryIfNotExists path w
  = match fs_exists (w_fs w) path with
    | Returns true => (w, Returns true)
    | Returns false =>
        match fs_create_directories (w_fs w) path with
        | (s', Returns created) => (set_fs w s', Returns created)
        | (s', Throws what) =>
            (log_line (set_fs w s')
               ("ERROR creating directory " ++ path ++ ": " ++ what),
             Returns false)
        end
    | Throws what =>
        (log_line w ("ERROR creating directory " ++ path ++ ": " ++ what),
         Returns false)
    end.
Proof.
  unfold createDirectoryIfNotExists, try_catch, bind, exists_,
    create_directories, ret, Logger_log.
  destruct (fs_exists (w_fs w) path) as [[|]|what]; try reflexivity.
  destruct (fs_create_directories (w_fs w) path) as [s' [created|what]];
    reflexivity.
Qed.

Lemma createDirectoryIfNotExists_returns (path : string) (w : world FS) :
  exists w' created, createDirectoryIfNotExists path w = (w', Returns created).
Proof.
  rewrite createDirectoryIfNotExists_run.
  destruct (fs_exists (w_fs w) path) as [[|]|what]; eauto.
  destruct (fs_create_directories (w_fs w) path) as [s' [created|what]]; eauto.
Qed.

(** What the loop body does for one record, by the result of the
    directory step and the answers of the filesystem. *)
Lemma organize_record_run (baseDirectory : string) (file : FileInfo)
    (w : world FS) :
  organize_record baseDirectory file w
  = let categoryPath := categoryPath_of baseDirectory file in
    let destPath := destPath_of baseDirectory file in
    let errorMsg := fun what => "ERROR moving " ++ name file ++ ": " ++ what in
    match createDirectoryIfNotExists categoryPath w with
    | (w1, Returns false) =>
        (log_line w1 ("ERROR: Failed to create directory: " ++ categoryPath),
         Returns false)
    | (w1, Returns true) =>
        match fs_exists (w_fs w1) destPath with
        | Returns true =>
            (log_line w1 ("SKIPPED: File already exists: " ++ destPath),
             Returns false)
        | Returns false =>
            match fs_rename (w_fs w1) (path file) destPath with
            | (s2, Returns _) =>
                (log_line (set_fs w1 s2)
                   ("Moved: " ++ name file ++ " â†’ "
                    ++ getCategoryForExtension (extension file) ++ "/"),
                 Returns true)
            | (s2, Throws what) =>
                (cerr_line (log_line (set_fs w1 s2) (errorMsg what))
                   (errorMsg what),
                 Returns false)
            end
        | Throws what =>
            (cerr_line (log_line w1 (errorMsg what)) (errorMsg what),
             Returns false)
        end
    | (w1, Throws what) =>
        (cerr_line (log_line w1 (errorMsg what)) (errorMsg what),
         Returns false)
    end.
Proof.
  unfold organize_record, destPath_of, categoryPath_of.
  cbv zeta. unfold try_catch at 1. unfold bind at 1.
  destruct (createDirectoryIfNotExists _ w) as [w1 [[|]|what]];
    cbn [negb]; try reflexivity.
  unfold bind, exists_, rename, Logger_log, cerr_endl, ret.
  destruct (fs_exists (w_fs w1) _) as [[|]|what]; try reflexivity.
  destruct (fs_rename (w_fs w1) _ _) as [s2 [[]|what]]; reflexivity.
Qed.

Lemma organize_record_returns (baseDirectory : string) (file : FileInfo)
    (w : world FS) :
  exists w' moved, organize_record baseDirectory file w = (w', Returns moved).
Proof.
  rewrite organize_record_run. cbv zeta.
  destruct (createDirectoryIfNotExists _ w) as [w1 [[|]|what]]; eauto.
  destruct (fs_exists (w_fs w1) _) as [[|]|what]; eauto.
  destruct (fs_rename (w_fs w1) _ _) as [s2 [[]|what]]; eauto.
Qed.

Lemma organize_loop_cons (baseDirectory : string) (file : FileInfo)
    (rest : list FileInfo) (movedCount : Z) (w w' : world FS) (moved : bool) :
  organize_record baseDirectory file w = (w', Returns moved) ->
  organize_loop baseDirectory (file :: rest) movedCount w
  = organize_loop baseDirectory rest
      (if moved then movedCount + 1 else movedCount)%Z w'.
Proof.
  intros H. cbn [organize_loop]. unfold bind at 1. now rewrite H.
Qed.

(** The loop returns, with a counter raised by at most one per record. *)
Lemma organize_loop_returns (baseDirectory : string) (files : list FileInfo)
    (movedCount : Z) (w : world FS) :
  exists w' n,
    organize_loop baseDirectory files movedCount w = (w', Returns n) /\
    (movedCount <= n <= movedCount + Z.of_nat (length files))%Z.
Proof.
  revert movedCount w. induction files as [|file rest IH]; intros movedCount w.
  - exists w, movedCount. split; [reflexivity | simpl; lia].
  - destruct (organize_record_returns baseDirectory file w) as [w1 [moved H]].
    rewrite (organize_loop_cons baseDirectory file rest movedCount w w1 moved H).
    destruct (IH (if moved then movedCount + 1 else movedCount)%Z w1)
      as [w' [n [E Hn]]].
    exists w', n. split; [exact E|].
    cbn [length]. destruct moved; lia.
Qed.

Lemma organizeByExtension_returns (files : list FileInfo)
    (baseDirectory : string) (w : world FS) :
  exists w' n,
    organizeByExtension files baseDirectory w = (w', Returns n) /\
    (0 <= n <= Z.of_nat (length files))%Z.
Proof.
  unfold organizeByExtension. unfold bind at 1. unfold Logger_log at 1.
  destruct (organize_loop_returns baseDirectory files 0
              (log_line w ("Starting file organization in: " ++ baseDirectory)))
    as [w1 [n [E Hn]]].
  unfold bind at 1. rewrite E.
  exists (log_line w1 ("Organization complete: " ++ to_string_int n
                       ++ " files moved")), n.
  split; [reflexivity | lia].
Qed.

Lemma categoryPath_not_empty (baseDirectory : string) (file : FileInfo) :
  categoryPath_of baseDirectory file <> "".
Proof.
  unfold categoryPath_of. destruct baseDirectory; discriminate.
Qed.

Section PathResolution.
Hypothesis path_resolution : resolves_through_parent FS.

(** A record whose destination exists takes the conflict branch: one
    message is logged, nothing else changes. *)
Lemma organize_record_conflict (baseDirectory : string) (file : FileInfo)
    (w : world FS) :
  fs_exists (w_fs w) (destPath_of baseDirectory file) = Returns true ->
  organize_record baseDirectory file w
  = (log_line w ("SKIPPED: File already exists: "
                 ++ destPath_of baseDirectory file),
     Returns false).
Proof.
  intros Hdest.
  assert (Hcat : fs_exists (w_fs w) (categoryPath_of baseDirectory file)
                 = Returns true).
  { apply (path_resolution (w_fs w) _ (name file));
      [apply categoryPath_not_empty | exact Hdest]. }
  rewrite organize_record_run. cbv zeta.
  rewrite createDirectoryIfNotExists_run, Hcat, Hdest. reflexivity.
Qed.

Lemma organize_loop_conflicts (baseDirectory : string) (files : list FileInfo)
    (movedCount : Z) (w : world FS) :
  (forall file, In file files ->
     fs_exists (w_fs w) (destPath_of baseDirectory file) = Returns true) ->
  organize_loop baseDirectory files movedCount w
  = (mkWorld (w_fs w)
       (w_log w ++
        map (fun file => "SKIPPED: File already exists: "
                         ++ destPath_of baseDirectory file)%string files)%list
       (w_cerr w) (w_files w),
     Returns movedCount).
Proof.
  revert w. induction files as [|file rest IH]; intros w Hall.
  - cbn [organize_loop map]. rewrite app_nil_r. now destruct w.
  - rewrite (organize_loop_cons baseDirectory file rest movedCount w _ false
               (organize_record_conflict baseDirectory file w
                  (Hall file (or_introl eq_refl)))).
    rewrite IH.
    + cbn [log_line w_fs w_log w_cerr w_files map]. unfold push_back.
      now rewrite <- app_assoc.
    + intros f Hf. cbn [log_line w_fs]. apply Hall. now right.
Qed.

(** C2. When the destination path of a record exists as the loop reaches
    the record, the record is skipped: the body logs the conflict and
    returns without having moved, the filesystem is the same afterwards (so
    neither the source nor the file at the destination is touched), and the
    loop goes on with the counter it had. *)
Theorem organize_skips_existing_destination (baseDirectory : string)
    (file : FileInfo) (rest : list FileInfo) (movedCount : Z) (w : world FS) :
  fs_exists (w_fs w) (destPath_of baseDirectory file) = Returns true ->
  let w' := log_line w ("SKIPPED: File already exists: "
                        ++ destPath_of baseDirectory file) in
  organize_record baseDirectory file w = (w', Returns false) /\
  w_fs w' = w_fs w /\
  organize_loop baseDirectory (file :: rest) movedCount w
  = organize_loop baseDirectory rest movedCount w'.
Proof.
  intros Hdest w'.
  pose proof (organize_record_conflict baseDirectory file w Hdest) as H.
  split; [exact H | split; [reflexivity|]].
  exact (organize_loop_cons baseDirectory file rest movedCount w w' false H).
Qed.

(** C3. On a tree that is already organized, where the destination of every
    record exists, [organizeByExtension] returns 0 and leaves the
    filesystem as it was: every record takes the conflict branch, which
    the log shows record by record. *)
Theorem organize_idempotent_on_organized (files : list FileInfo)
    (baseDirectory : string) (w : world FS) :
  (forall file, In file files ->
     fs_exists (w_fs w) (destPath_of baseDirectory file) = Returns true) ->
  organizeByExtension files baseDirectory w
  = (mkWorld (w_fs w)
       (w_log w
        ++ [("Starting file organization in: " ++ baseDirectory)%string]
        ++ map (fun file => "SKIPPED: File already exists: "
                            ++ destPath_of baseDirectory file)%string files
        ++ ["Organization complete: 0 files moved"])%list
       (w_cerr w) (w_files w),
     Returns 0%Z).
Proof.
  intros Hall. unfold organizeByExtension.
  unfold bind at 1. unfold Logger_log at 1.
  unfold bind at 1. rewrite organize_loop_conflicts by exact Hall.
  unfold bind, Logger_log, ret, log_line, push_back.
  cbn [w_fs w_log w_cerr w_files].
  change (to_string_int 0) with "0".
  now rewrite <- !app_assoc.
Qed.

End PathResolution.
End Reorganizer.

(** ** Failures of single records *)

Section FailureIsolation.
Context {FS : Type} {FSI : FileSystem FS}.

(** The loop over a batch in two parts: the second part starts from the
    state and the counter that the first part leaves. *)
Lemma organize_loop_app (baseDirectory : string) (pre rest : list FileInfo)
    (movedCount n1 : Z) (w w1 : world FS) :
  organize_loop baseDirectory pre movedCount w = (w1, Returns n1) ->
  organize_loop baseDirectory (pre ++ rest) movedCount w
  = organize_loop baseDirectory rest n1 w1.
Proof.
  revert movedCount w. induction pre as [|file pre IH]; intros movedCount w H.
  - cbn in H. injection H as <- <-. reflexivity.
  - destruct (organize_record_returns baseDirectory file w) as [w' [moved Hr]].
    rewrite (organize_loop_cons baseDirectory file pre movedCount w w' moved Hr)
      in H.
    cbn [app].
    rewrite (organize_loop_cons baseDirectory file (pre ++ rest) movedCount
               w w' moved Hr).
    now apply IH.
Qed.

(** A record that fails is left by the loop body in the state of the
    failure, and is not counted. *)
Lemma record_failure_not_moved (baseDirectory : string) (file : FileInfo)
    (w w' : world FS) :
  record_failure baseDirectory file w w' ->
  organize_record baseDirectory file w = (w', Returns false).
Proof.
  unfold record_failure. cbv zeta. rewrite organize_record_run. cbv zeta.
  intros [(w1 & H & ->) | [(w1 & what & H & H2 & ->)
                          | (w1 & s2 & what & H & H2 & H3 & ->)]].
  - now rewrite H.
  - now rewrite H, H2.
  - now rewrite H, H2, H3.
Qed.

(** The loop only adds to the log. *)
Lemma organize_record_keeps_log (baseDirectory : string) (file : FileInfo)
    (w w' : world FS) (r : outcome bool) :
  organize_record baseDirectory file w = (w', r) ->
  exists lines, w_log w' = (w_log w ++ lines)%list.
Proof.
  rewrite organize_record_run. cbv zeta.
  rewrite createDirectoryIfNotExists_run.
  destruct (fs_exists (w_fs w) (categoryPath_of baseDirectory file))
    as [[|]|what0];
    [ | destruct (fs_create_directories (w_fs w)
                    (categoryPath_of baseDirectory file))
          as [s' [[|]|what1]] | ];
    repeat match goal with
           | |- context [match fs_exists ?s ?p with _ => _ end] =>
               destruct (fs_exists s p) as [[|]|?]
           | |- context [fs_rename ?s ?a ?b] =>
               destruct (fs_rename s a b) as [? [[]|?]]
           end;
    intros H; injection H as <- _;
    cbn [cerr_line log_line set_fs w_log]; unfold push_back;
    rewrite <- ?app_assoc; eexists; reflexivity.
Qed.

Lemma organize_loop_keeps_log (baseDirectory : string) (files : list FileInfo)
    (movedCount : Z) (w w' : world FS) (r : outcome Z) :
  organize_loop baseDirectory files movedCount w = (w', r) ->
  exists lines, w_log w' = (w_log w ++ lines)%list.
Proof.
  revert movedCount w. induction files as [|file rest IH]; intros movedCount w H.
  - cbn in H. injection H as <- _. exists []. now rewrite app_nil_r.
  - destruct (organize_record_returns baseDirectory file w) as [w1 [moved Hr]].
    rewrite (organize_loop_cons baseDirectory file rest movedCount w w1 moved
               Hr) in H.
    destruct (organize_record_keeps_log baseDirectory file w w1 _ Hr)
      as [l1 Hl1].
    destruct (IH _ w1 H) as [l2 Hl2].
    exists (l1 ++ l2)%list. now rewrite Hl2, Hl1, <- app_assoc.
Qed.

(** C7. Whatever the filesystem answers, the loop body returns for every
    record and the loop goes on with the next one. [organizeByExtension]
    is the loop between its two messages: it always returns, and what it
    returns is the counter of the loop, between 0 and the number of
    records. When the directory step fails (the existence test or
    [create_directories] throws, which is caught and logged, or the
    directory is reported as not created) the record is left with an
    "ERROR" message in the log and is not counted; when the existence test
    of the destination or the move throws, the exception is caught, the
    message "ERROR moving", the name and the error text go to the log and
    to [std::cerr], and the record is not counted. For a batch in which a
    record fails, [organizeByExtension] returns what the records before it
    and the records after it add to the counter, the records after it
    being processed from the state of the failure, whose error message
    stays in the log. *)
Theorem organize_failures_isolated (baseDirectory : string)
    (file : FileInfo) (rest : list FileInfo) (movedCount : Z) (w : world FS) :
  let categoryPath := categoryPath_of baseDirectory file in
  let destPath := destPath_of baseDirectory file in
  let errorMsg := fun what => "ERROR moving " ++ name file ++ ": " ++ what in
  let started :=
    log_line w ("Starting file organization in: " ++ baseDirectory) in
  let complete := fun n : Z =>
    "Organization complete: " ++ to_string_int n ++ " files moved" in
  (exists w' moved,
      organize_record baseDirectory file w = (w', Returns moved) /\
      organize_loop baseDirectory (file :: rest) movedCount w
      = organize_loop baseDirectory rest
          (if moved then movedCount + 1 else movedCount)%Z w') /\
  (forall files : list FileInfo,
      exists w1 n,
        organize_loop baseDirectory files 0 started = (w1, Returns n) /\
        organizeByExtension files baseDirectory w
        = (log_line w1 (complete n), Returns n) /\
        (0 <= n <= Z.of_nat (length files))%Z) /\
  (forall what,
      fs_exists (w_fs w) categoryPath = Throws what ->
      createDirectoryIfNotExists categoryPath w
      = (log_line w ("ERROR creating directory " ++ categoryPath ++ ": "
                     ++ what),
         Returns false)) /\
  (forall s' what,
      fs_exists (w_fs w) categoryPath = Returns false ->
      fs_create_directories (w_fs w) categoryPath = (s', Throws what) ->
      createDirectoryIfNotExists categoryPath w
      = (log_line (set_fs w s')
           ("ERROR creating directory " ++ categoryPath ++ ": " ++ what),
         Returns false)) /\
  (forall w1,
      createDirectoryIfNotExists categoryPath w = (w1, Returns false) ->
      organize_record baseDirectory file w
      = (log_line w1 ("ERROR: Failed to create directory: " ++ categoryPath),
         Returns false)) /\
  (forall w1 what,
      createDirectoryIfNotExists categoryPath w = (w1, Returns true) ->
      fs_exists (w_fs w1) destPath = Throws what ->
      organize_record baseDirectory file w
      = (cerr_line (log_line w1 (errorMsg what)) (errorMsg what),
         Returns false)) /\
  (forall w1 s2 what,
      createDirectoryIfNotExists categoryPath w = (w1, Returns true) ->
      fs_exists (w_fs w1) destPath = Returns false ->
      fs_rename (w_fs w1) (path file) destPath = (s2, Throws what) ->
      organize_record baseDirectory file w
      = (cerr_line (log_line (set_fs w1 s2) (errorMsg what)) (errorMsg what),
         Returns false)) /\
  (forall (before after : list FileInfo) (w1 w2 w3 : world FS) (n1 n : Z),
      organize_loop baseDirectory before 0 started = (w1, Returns n1) ->
      record_failure baseDirectory file w1 w2 ->
      organize_loop baseDirectory after n1 w2 = (w3, Returns n) ->
      organizeByExtension (before ++ file :: after) baseDirectory w
      = (log_line w3 (complete n), Returns n) /\
      (0 <= n1 <= Z.of_nat (length before))%Z /\
      (n1 <= n <= n1 + Z.of_nat (length after))%Z /\
      exists lines, w_log w3 = (w_log w2 ++ lines)%list).
Proof.
  cbv zeta.
  assert (Hrun : forall files (w1 : world FS) n,
    organize_loop baseDirectory files 0
      (log_line w ("Starting file organization in: " ++ baseDirectory))
    = (w1, Returns n) ->
    organizeByExtension files baseDirectory w
    = (log_line w1 ("Organization complete: " ++ to_string_int n
                    ++ " files moved"), Returns n)).
  { intros files w1 n H. unfold organizeByExtension.
    unfold bind at 1. unfold Logger_log at 1. unfold bind at 1.
    rewrite H. reflexivity. }
  split; [|split; [|split; [|split; [|split; [|split; [|split]]]]]].
  - destruct (organize_record_returns baseDirectory file w) as [w' [moved H]].
    exists w', moved. split; [exact H|].
    exact (organize_loop_cons baseDirectory file rest movedCount w w' moved H).
  - intros files.
    destruct (organize_loop_returns baseDirectory files 0
                (log_line w ("Starting file organization in: "
                             ++ baseDirectory)))
      as (w1 & n & H & Hn).
    exists w1, n. split; [exact H | split; [now apply Hrun | lia]].
  - intros what H. now rewrite createDirectoryIfNotExists_run, H.
  - intros s' what H1 H2.
    now rewrite createDirectoryIfNotExists_run, H1, H2.
  - intros w1 H. rewrite organize_record_run. cbv zeta. now rewrite H.
  - intros w1 what H1 H2. rewrite organize_record_run. cbv zeta.
    now rewrite H1, H2.
  - intros w1 s2 what H1 H2 H3. rewrite organize_record_run. cbv zeta.
    now rewrite H1, H2, H3.
  - intros before after w1 w2 w3 n1 n Hbefore Hfail Hafter.
    pose proof (record_failure_not_moved baseDirectory file w1 w2 Hfail)
      as Hrec.
    split; [|split; [|split]].
    + apply Hrun.
      rewrite (organize_loop_app baseDirectory before (file :: after) 0 n1
                 _ w1 Hbefore).
      rewrite (organize_loop_cons baseDirectory file after n1 w1 w2 false
                 Hrec).
      exact Hafter.
    + destruct (organize_loop_returns baseDirectory before 0
                  (log_line w ("Starting file organization in: "
                               ++ baseDirectory)))
        as (w1' & n1' & H & Hn).
      rewrite Hbefore in H. injection H as _ <-. lia.
    + destruct (organize_loop_returns baseDirectory after n1 w2)
        as (w3' & n' & H & Hn).
      rewrite Hafter in H. injection H as _ <-. exact Hn.
    + exact (organize_loop_keeps_log baseDirectory after n1 w2 w3 _ Hafter).
Qed.

End FailureIsolation.

(** ** Scanning *)

Section Scanner.
Context {FS : Type} {FSI : FileSystem FS}.

Lemma directoryExists_run (targetDirectory : string) (w : world FS) :
  directoryExists targetDirectory w
  = match fs_exists (w_fs w) targetDirectory with
    | Returns true =>
        match fs_is_directory (w_fs w) targetDirectory with
        | Returns isDir => (w, Returns isDir)
        | Throws what =>
            (log_line w ("ERROR checking directory: " ++ what), Returns false)
        end
    | Returns false => (w, Returns false)
    | Throws what =>
        (log_line w ("ERROR checking directory: " ++ what), Returns false)
    end.
Proof.
  unfold directoryExists, try_catch, bind, exists_, is_directory, ret,
    Logger_log.
  destruct (fs_exists (w_fs w) targetDirectory) as [[|]|what]; reflexivity.
Qed.

(** [scanDirectory] starts by emptying [files]: what was there before has
    no influence on the run. *)
Lemma scanDirectory_clears (targetDirectory : string) (w : world FS)
    (prior : list FileInfo) :
  scanDirectory targetDirectory (set_files w prior)
  = scanDirectory targetDirectory (set_files w []).
Proof. reflexivity. Qed.

Lemma try_catch_returns {A : Type} (c : M FS A) (handler : string -> M FS A) :
  (forall what w, exists w' a, handler what w = (w', Returns a)) ->
  forall w, exists w' a, try_catch c handler w = (w', Returns a).
Proof.
  intros Hh w. unfold try_catch. destruct (c w) as [w1 [a|what]]; eauto.
Qed.

Lemma scanDirectory_returns (targetDirectory : string) (w : world FS) :
  exists w' n, scanDirectory targetDirectory w = (w', Returns n).
Proof.
  unfold scanDirectory. unfold bind at 1. unfold files_clear.
  unfold bind at 1. rewrite directoryExists_run.
  assert (Hscan : forall w0 : world FS, exists w' n,
    try_catch
      (scan_iteration targetDirectory ;;
       n <- files_size ;;
       Logger_log ("Scan complete: " ++ to_string (N.of_nat n)
                   ++ " files found") ;;
       ret (static_cast_int n))
      (fun what =>
         let errorMsg := "ERROR scanning directory: " ++ what in
         Logger_log errorMsg ;; cerr_endl errorMsg ;; ret 0%Z) w0
    = (w', Returns n)).
  { apply try_catch_returns. intros what w0. eexists _, _.
    cbv beta zeta iota delta [bind Logger_log cerr_endl ret]. reflexivity. }
  destruct (fs_exists (w_fs (set_files w [])) targetDirectory)
    as [[|]|what]; cbn [negb]; try (eexists _, _; reflexivity).
  destruct (fs_is_directory (w_fs (set_files w [])) targetDirectory)
    as [[|]|what]; cbn [negb]; try (eexists _, _; reflexivity).
  apply Hscan.
Qed.

(** C9. When the target directory is missing or unreadable [scanDirectory]
    returns 0, without throwing, and leaves the collection empty and the
    filesystem as it was; in every case it returns, and the collection it
    leaves does not depend on the one it found, which it clears first. *)
Theorem scanDirectory_missing_or_unreadable (targetDirectory : string)
    (w : world FS) :
  (directory_missing (w_fs w) targetDirectory \/
   directory_unreadable (w_fs w) targetDirectory ->
   exists w',
     scanDirectory targetDirectory w = (w', Returns 0%Z) /\
     w_files w' = [] /\ w_fs w' = w_fs w) /\
  (exists w' n, scanDirectory targetDirectory w = (w', Returns n)) /\
  (forall prior : list FileInfo,
     scanDirectory targetDirectory (set_files w prior)
     = scanDirectory targetDirectory (set_files w [])).
Proof.
  split; [|split].
  - intros H.
    unfold scanDirectory. unfold bind at 1. unfold files_clear.
    unfold bind at 1. rewrite directoryExists_run.
    change (w_fs (set_files w [])) with (w_fs w).
    destruct (fs_exists (w_fs w) targetDirectory) as [[|]|what] eqn:Eex;
      try (eexists; repeat split; reflexivity).
    destruct (fs_is_directory (w_fs w) targetDirectory)
      as [[|]|what] eqn:Edir;
      try (eexists; repeat split; reflexivity).
    destruct H as [[H|H]|[what H]]; try (now elim H).
    cbn [negb]. unfold try_catch, bind at 1, scan_iteration.
    change (w_fs (set_files w [])) with (w_fs w). rewrite H.
    eexists; repeat split; reflexivity.
  - apply scanDirectory_returns.
  - intros prior. apply scanDirectory_clears.
Qed.

End Scanner.

(** ** The filesystem in memory obeys path resolution *)

Lemma slash_prefixes_self (d n : string) :
  In d (MemFS.slash_prefixes (d ++ String "/" n)).
Proof.
  induction d as [|c d IH]; simpl.
  - now left.
  - apply in_or_app. right. now apply in_map.
Qed.

Lemma slash_prefixes_app (d x q : string) :
  In q (MemFS.slash_prefixes d) -> In q (MemFS.slash_prefixes (d ++ x)).
Proof.
  revert q. induction d as [|c d IH]; intros q H; simpl in *.
  - contradiction.
  - apply in_app_or in H. apply in_or_app. destruct H as [H|H].
    + now left.
    + right. apply in_map_iff in H. destruct H as [q' [<- H]].
      apply in_map. now apply IH.
Qed.

Lemma MemFS_resolves_through_parent : resolves_through_parent MemFS.t.
Proof.
  intros s d n Hd H. cbn [fs_exists MemFS_FileSystem] in *.
  unfold MemFS.m_exists in *. injection H as H. f_equal.
  unfold MemFS.present in *. apply andb_true_iff in H. destruct H as [Hr _].
  unfold MemFS.reachable in *. rewrite forallb_forall in Hr.
  apply andb_true_iff. split.
  - apply forallb_forall. intros q Hq. apply Hr.
    now apply slash_prefixes_app.
  - specialize (Hr d (slash_prefixes_self d n)).
    apply orb_true_iff in Hr. destruct Hr as [Hr|Hr].
    + apply String.eqb_eq in Hr. contradiction.
    + unfold MemFS.is_dir in Hr.
      now destruct (MemFS.lookup d (MemFS.nodes s)).
Qed.

(** ** The engine run on the sample tree *)

(** A scan of "base" finds the four regular files, in the order of the
    directory, and skips the sub-directories. *)
Example scan_sample :
  let '(w, r) := scanDirectory "base" sample_world in
  r = Returns 4%Z /\
  w_files w = [sample_a; sample_b; sample_c; sample_notes].
Proof. vm_compute. split; reflexivity. Qed.

(** Organizing them moves "c.zip" only: "a.txt" meets a conflict, the
    directory for "b.jpg" cannot be made and "notes" cannot be moved. *)
Example organize_sample :
  let '(w, r) :=
    organizeByExtension [sample_a; sample_b; sample_c; sample_notes] "base"
      sample_world in
  r = Returns 1%Z /\
  MemFS.lookup "base/Archives/c.zip" (MemFS.nodes (w_fs w))
  = Some (MemFS.RegularFile "packed") /\
  MemFS.lookup "base/c.zip" (MemFS.nodes (w_fs w)) = None /\
  MemFS.lookup "base/a.txt" (MemFS.nodes (w_fs w))
  = Some (MemFS.RegularFile "new text") /\
  MemFS.lookup "base/Documents/a.txt" (MemFS.nodes (w_fs w))
  = Some (MemFS.RegularFile "old text") /\
  w_cerr w = ["ERROR moving notes: Permission denied"].
Proof. vm_compute. repeat split; reflexivity. Qed.

(** *** Instances of the theorems on the sample tree *)

Lemma organize_skips_existing_destination_sample :
  resolves_through_parent MemFS.t /\
  fs_exists (w_fs sample_world) (destPath_of "base" sample_a) = Returns true /\
  organize_record "base" sample_a sample_world
  = (log_line sample_world
       "SKIPPED: File already exists: base/Documents/a.txt",
     Returns false).
Proof.
  split; [exact MemFS_resolves_through_parent|].
  split; [reflexivity|].
  exact (proj1 (organize_skips_existing_destination
                  MemFS_resolves_through_parent "base" sample_a [] 0
                  sample_world eq_refl)).
Defined.

Lemma organize_idempotent_on_organized_sample :
  resolves_through_parent MemFS.t /\
  (forall file, In file [sample_a] ->
     fs_exists (w_fs sample_world) (destPath_of "base" file) = Returns true) /\
  snd (organizeByExtension [sample_a] "base" sample_world) = Returns 0%Z.
Proof.
  assert (H : forall file, In file [sample_a] ->
     fs_exists (w_fs sample_world) (destPath_of "base" file) = Returns true).
  { intros file [<-|[]]. reflexivity. }
  split; [exact MemFS_resolves_through_parent|].
  split; [exact H|].
  rewrite (organize_idempotent_on_organized
             MemFS_resolves_through_parent [sample_a] "base" sample_world H).
  reflexivity.
Defined.

Lemma organize_failures_isolated_sample :
  let started :=
    log_line sample_world "Starting file organization in: base" in
  let w1 := fst (organize_loop "base" [sample_a] 0 started) in
  let w1' := fst (createDirectoryIfNotExists "base/Images" w1) in
  let w2 := log_line w1' "ERROR: Failed to create directory: base/Images" in
  let w3 := fst (organize_loop "base" [sample_c; sample_notes] 0 w2) in
  let v1 := fst (createDirectoryIfNotExists "base/Others" sample_world) in
  let s2 := fst (fs_rename (w_fs v1) "base/notes" "base/Others/notes") in
  (organize_loop "base" [sample_a] 0 started = (w1, Returns 0%Z) /\
   record_failure "base" sample_b w1 w2 /\
   organize_loop "base" [sample_c; sample_notes] 0 w2 = (w3, Returns 1%Z) /\
   organizeByExtension ([sample_a] ++ sample_b :: [sample_c; sample_notes])
     "base" sample_world
   = (log_line w3 "Organization complete: 1 files moved", Returns 1%Z)) /\
  (createDirectoryIfNotExists "base/Others" sample_world = (v1, Returns true) /\
   fs_exists (w_fs v1) "base/Others/notes" = Returns false /\
   fs_rename (w_fs v1) "base/notes" "base/Others/notes"
   = (s2, Throws "Permission denied") /\
   organize_record "base" sample_notes sample_world
   = (cerr_line (log_line (set_fs v1 s2)
                   "ERROR moving notes: Permission denied")
        "ERROR moving notes: Permission denied",
      Returns false)).
Proof.
  intros started w1 w1' w2 w3 v1 s2.
  assert (H1 : organize_loop "base" [sample_a] 0 started = (w1, Returns 0%Z))
    by (vm_compute; reflexivity).
  assert (H2 : record_failure "base" sample_b w1 w2).
  { left. exists w1'. split; [vm_compute; reflexivity | reflexivity]. }
  assert (H3 : organize_loop "base" [sample_c; sample_notes] 0 w2
               = (w3, Returns 1%Z)) by (vm_compute; reflexivity).
  assert (G1 : createDirectoryIfNotExists "base/Others" sample_world
               = (v1, Returns true)) by (vm_compute; reflexivity).
  assert (G2 : fs_exists (w_fs v1) "base/Others/notes" = Returns false)
    by (vm_compute; reflexivity).
  assert (G3 : fs_rename (w_fs v1) "base/notes" "base/Others/notes"
               = (s2, Throws "Permission denied"))
    by (vm_compute; reflexivity).
  split.
  - split; [exact H1 | split; [exact H2 | split; [exact H3|]]].
    destruct (organize_failures_isolated "base" sample_b [] 0 sample_world)
      as (_ & _ & _ & _ & _ & _ & _ & Hbatch).
    exact (proj1 (Hbatch [sample_a] [sample_c; sample_notes] w1 w2 w3 0%Z 1%Z
                    H1 H2 H3)).
  - split; [exact G1 | split; [exact G2 | split; [exact G3|]]].
    destruct (organize_failures_isolated "base" sample_notes [] 0 sample_world)
      as (_ & _ & _ & _ & _ & _ & Hmove & _).
    exact (Hmove v1 s2 "Permission denied" G1 G2 G3).
Defined.

Lemma scanDirectory_missing_or_unreadable_sample :
  directory_missing (w_fs sample_world) "nowhere" /\
  directory_unreadable (w_fs sample_world) "base/private" /\
  (exists w', scanDirectory "nowhere" sample_world = (w', Returns 0%Z)
              /\ w_files w' = [] /\ w_fs w' = sample_fs) /\
  (exists w', scanDirectory "base/private" sample_world = (w', Returns 0%Z)
              /\ w_files w' = [] /\ w_fs w' = sample_fs).
Proof.
  assert (Hm : directory_missing (w_fs sample_world) "nowhere")
    by (left; vm_compute; discriminate).
  assert (Hu : directory_unreadable (w_fs sample_world) "base/private")
    by (exists "Permission denied"; reflexivity).
  split; [exact Hm | split; [exact Hu | split]].
  - exact (proj1 (scanDirectory_missing_or_unreadable "nowhere" sample_world)
             (or_introl Hm)).
  - exact (proj1 (scanDirectory_missing_or_unreadable "base/private"
                    sample_world) (or_intror Hu)).
Defined.

Lemma getCategoryForExtension_total_sample :
  In (".jpeg", "Images") category_assignments /\
  ~ In ".JPEG" (map fst category_assignments) /\
  getCategoryForExtension ".jpeg" = "Images" /\
  getCategoryForExtension ".JPEG" = "Others".
Proof.
  assert (H1 : In (".jpeg", "Images") category_assignments)
    by (unfold category_assignments; do 11 right; left; reflexivity).
  assert (H2 : ~ In ".JPEG" (map fst category_assignments)).
  { cbv. intros H.
    repeat (destruct H as [H|H]; [discriminate H|]). exact H. }
  split; [exact H1 | split; [exact H2 | split]].
  - exact (proj2 (proj1 getCategoryForExtension_total ".jpeg" "Images" H1)).
  - exact (proj2 (proj1 (proj2 getCategoryForExtension_total) ".JPEG" H2)).
Defined.

Lemma searchByName_empty_term_sample :
  "a" <> "" /\
  handleSearchFiles [sample_a; sample_b] "a"
  = Searched (fst (searchByName [sample_a; sample_b] "a"))
             (snd (searchByName [sample_a; sample_b] "a")).
Proof.
  assert (H : "a" <> "") by discriminate.
  split; [exact H|].
  exact (proj2 (proj2 searchByName_empty_term) sample_a [sample_b] "a" H).
Defined.

Lemma findDuplicates_groups_sample :
  let copy := FileInfo_make "a.txt" "backup/a.txt" ".txt" 8 in
  let files := [sample_a; sample_b; copy] in
  (0 <> 2)%nat /\
  nth_error files 0 = Some sample_a /\
  nth_error files 2 = Some copy /\
  size sample_a = size copy /\
  name sample_a = name copy /\
  exists group,
    SMap.find "8_a.txt" (fst (findDuplicates files)) = Some group /\
    In sample_a group /\ In copy group.
Proof.
  intros copy files.
  assert (H0 : (0 <> 2)%nat) by discriminate.
  split; [exact H0|]. do 4 (split; [reflexivity|]).
  destruct (findDuplicates_groups files) as (_ & _ & H).
  destruct (H 0%nat 2%nat sample_a copy H0 eq_refl eq_refl eq_refl eq_refl)
    as (_ & group & Hfind & _ & Hin1 & Hin2 & _).
  exists group. split; [exact Hfind | split; [exact Hin1 | exact Hin2]].
Defined.

(* ===================================================================== *)
(** * Part III: further properties of the code                            *)
(* ===================================================================== *)

(** ** More on strings *)

Lemma string_app_assoc (a b c : string) : (a ++ b) ++ c = a ++ (b ++ c).
Proof. induction a as [|x a IH]; simpl; [reflexivity | now rewrite IH]. Qed.

Lemma string_app_nil_r (a : string) : a ++ "" = a.
Proof. induction a as [|x a IH]; simpl; [reflexivity | now rewrite IH]. Qed.

Lemma string_length_app (a b : string) :
  String.length (a ++ b) = (String.length a + String.length b)%nat.
Proof. induction a as [|x a IH]; simpl; [reflexivity | now rewrite IH]. Qed.

Lemma transform_length (f : ascii -> ascii) (s : string) :
  String.length (transform f s) = String.length s.
Proof. induction s as [|c s IH]; simpl; [reflexivity | now rewrite IH]. Qed.

Lemma transform_append (f : ascii -> ascii) (a b : string) :
  transform f (a ++ b) = transform f a ++ transform f b.
Proof. induction a as [|c a IH]; simpl; [reflexivity | now rewrite IH]. Qed.

Lemma transform_substr (f : ascii -> ascii) (pos : nat) (s : string) :
  substr pos (transform f s) = transform f (substr pos s).
Proof.
  revert s. induction pos as [|pos IH]; intros [|c s]; simpl; auto.
Qed.

(** [tolower] neither makes nor unmakes a dot. *)
Lemma tolower_dot (c : ascii) : Ascii.eqb (tolower c) "." = Ascii.eqb c ".".
Proof. destruct c as [[] [] [] [] [] [] [] []]; reflexivity. Qed.

Lemma find_last_of_dot_tolower (s : string) :
  find_last_of "." (transform tolower s) = find_last_of "." s.
Proof.
  induction s as [|c s IH]; simpl; [reflexivity|].
  now rewrite IH, tolower_dot.
Qed.

Lemma has_char_dot_tolower (s : string) :
  has_char "." (transform tolower s) = has_char "." s.
Proof.
  induction s as [|c s IH]; simpl; [reflexivity|].
  now rewrite IH, tolower_dot.
Qed.

(** The position that [find_last_of] reports cuts the text in a part
    before the character and a part after it that holds no other. *)
Lemma find_last_of_some (c : ascii) (s : string) (i : nat) :
  find_last_of c s = Some i ->
  exists pre suf,
    s = pre ++ String c suf /\ String.length pre = i /\
    has_char c suf = false.
Proof.
  revert i. induction s as [|a s IH]; intros i H; simpl in H; [discriminate|].
  destruct (find_last_of c s) as [j|] eqn:E.
  - injection H as <-. destruct (IH j eq_refl) as [pre [suf [-> [Hl Hs]]]].
    exists (String a pre), suf. simpl. auto.
  - destruct (Ascii.eqb a c) eqn:Ea; [|discriminate]. injection H as <-.
    apply Ascii.eqb_eq in Ea. subst a. exists "", s. repeat split.
    now apply find_last_of_none.
Qed.

(** ** Extension extraction, in general *)

(** X1. The extension does not depend on the letter case of the file
    name, and it is already in lower case. *)
Theorem extractExtension_ignores_case (filename : string) :
  extractExtension (toLowercase filename) = extractExtension filename /\
  toLowercase (extractExtension filename) = extractExtension filename.
Proof.
  unfold extractExtension, toLowercase.
  rewrite find_last_of_dot_tolower.
  destruct (find_last_of "." filename) as [dotPos|]; [|split; reflexivity].
  destruct (0 <? dotPos)%nat; [|split; reflexivity].
  rewrite transform_substr.
  split; apply (toLowercase_idempotent (substr dotPos filename)).
Qed.

Lemma has_char_app (c : ascii) (a b : string) :
  has_char c (a ++ b) = has_char c a || has_char c b.
Proof.
  induction a as [|x a IH]; simpl; [reflexivity|].
  now rewrite IH, orb_assoc.
Qed.

Lemma string_app_inv_length (a a' b b' : string) :
  String.length a = String.length a' ->
  a ++ b = a' ++ b' -> a = a' /\ b = b'.
Proof.
  revert a'. induction a as [|x a IH]; intros [|x' a'] Hlen H; simpl in *;
    try discriminate.
  - auto.
  - injection H as -> H. injection Hlen as Hlen.
    destruct (IH a' Hlen H) as [-> ->]. auto.
Qed.

(** X2. Every file name is of exactly one of three shapes. It has no dot,
    or its only dot is its first character, and then the extension is
    empty; or it is a non-empty stem, a dot and a suffix without dot, in
    one way only, and then the extension is the dot and the lowercased
    suffix. No name is of two of these shapes. *)
Theorem extractExtension_shape (filename : string) :
  ((no_dot filename /\ extractExtension filename = "") \/
   (leading_dot_only filename /\ extractExtension filename = "") \/
   (exists stem suffix,
       stem_dot_suffix filename stem suffix /\
       extractExtension filename = String "." (transform tolower suffix))) /\
  ~ (no_dot filename /\ leading_dot_only filename) /\
  (forall stem suffix,
      ~ (no_dot filename /\ stem_dot_suffix filename stem suffix)) /\
  (forall stem suffix,
      ~ (leading_dot_only filename /\ stem_dot_suffix filename stem suffix)) /\
  (forall stem suffix stem' suffix',
      stem_dot_suffix filename stem suffix ->
      stem_dot_suffix filename stem' suffix' ->
      stem = stem' /\ suffix = suffix').
Proof.
  unfold no_dot, leading_dot_only, stem_dot_suffix.
  split; [|split; [|split; [|split]]].
  - destruct (find_last_of "." filename) as [i|] eqn:E.
    + destruct (find_last_of_some "." filename i E)
        as [pre [suf [-> [Hl Hs]]]].
      destruct pre as [|a pre].
      * right. left. split; [now exists suf|].
        now apply extractExtension_leading_dot_only.
      * right. right. exists (String a pre), suf.
        split; [split; [discriminate | split; [reflexivity | exact Hs]]|].
        now apply extractExtension_last_dot.
    + left. apply find_last_of_none in E. split; [exact E|].
      now apply extractExtension_no_dot.
  - intros [Hno [rest [-> _]]]. simpl in Hno. discriminate.
  - intros stem suffix [Hno [_ [-> _]]].
    rewrite has_char_app in Hno. simpl in Hno.
    rewrite orb_true_r in Hno. discriminate.
  - intros stem suffix [[rest [Hname Hrest]] [Hstem [Hname' Hsuffix]]].
    pose proof (find_last_of_app "." "" rest Hrest) as H0.
    pose proof (find_last_of_app "." stem suffix Hsuffix) as H1.
    cbn [append] in H0. rewrite <- Hname in H0. rewrite <- Hname' in H1.
    rewrite H0 in H1. injection H1 as H1.
    destruct stem; [now elim Hstem | discriminate].
  - intros stem suffix stem' suffix' [_ [Hname Hsuffix]] [_ [Hname' Hsuffix']].
    pose proof (find_last_of_app "." stem suffix Hsuffix) as H0.
    pose proof (find_last_of_app "." stem' suffix' Hsuffix') as H1.
    rewrite <- Hname in H0. rewrite <- Hname' in H1.
    rewrite H0 in H1. injection H1 as Hlen.
    rewrite Hname in Hname'.
    destruct (string_app_inv_length stem stem' _ _ Hlen Hname') as [-> H].
    now injection H as ->.
Qed.

Lemma table_keys_extension_form :
  forallb (fun kv => extension_form (fst kv)) category_assignments = true.
Proof. vm_compute. reflexivity. Qed.

(** X3. No entry of the table is out of reach: a file whose name is, up to
    letter case, a non-empty stem followed by a key of the table is given
    the category of that key. *)
Theorem table_entries_reachable (filename stem ext cat : string) :
  In (ext, cat) category_assignments ->
  stem <> "" ->
  toLowercase filename = stem ++ ext ->
  getCategoryForExtension (extractExtension filename) = cat.
Proof.
  intros Hin Hstem Hname.
  pose proof table_keys_extension_form as Hform.
  rewrite forallb_forall in Hform. specialize (Hform _ Hin). simpl in Hform.
  destruct ext as [|c suffix]; [discriminate|]. simpl in Hform.
  apply andb_true_iff in Hform. destruct Hform as [Hform Hlow].
  apply andb_true_iff in Hform. destruct Hform as [Hc Hdot].
  apply Ascii.eqb_eq in Hc. subst c.
  apply negb_true_iff in Hdot. apply String.eqb_eq in Hlow.
  rewrite <- (proj1 (extractExtension_ignores_case filename)), Hname.
  rewrite extractExtension_last_dot by assumption. rewrite Hlow.
  pose proof assignments_found as H.
  rewrite forallb_forall in H. specialize (H _ Hin). simpl in H.
  unfold getCategoryForExtension.
  destruct (SMap.find (String "." suffix) extensionCategories) as [c|];
    [|discriminate].
  now apply String.eqb_eq in H.
Qed.

Lemma table_entries_reachable_sample :
  In (".jpeg", "Images") category_assignments /\
  "holiday" <> "" /\
  toLowercase "Holiday.JPEG" = "holiday" ++ ".jpeg" /\
  getCategoryForExtension (extractExtension "Holiday.JPEG") = "Images".
Proof.
  assert (H1 : In (".jpeg", "Images") category_assignments)
    by (unfold category_assignments; do 11 right; left; reflexivity).
  assert (H2 : "holiday" <> "") by discriminate.
  split; [exact H1 | split; [exact H2 | split; [reflexivity|]]].
  exact (table_entries_reachable "Holiday.JPEG" "holiday" ".jpeg" "Images"
           H1 H2 eq_refl).
Defined.

(** ** [operator==] and the fingerprint *)

Lemma FileInfo_eq_iff (a b : FileInfo) :
  FileInfo_eq a b = true <-> size a = size b /\ name a = name b.
Proof.
  unfold FileInfo_eq. rewrite andb_true_iff, N.eqb_eq, String.eqb_eq.
  reflexivity.
Qed.

(** X4. [operator==] on records and equality of fingerprints are the same
    relation; it is weaker than identity of records, since two records that
    differ in their path can be equal; and the records of one duplicate
    group are equal to each other in that sense. *)
Theorem FileInfo_eq_fingerprint :
  (forall a b : FileInfo,
      FileInfo_eq a b = true <->
      generateSimpleHash a = generateSimpleHash b) /\
  (forall (n p p' ext : string) (s : N),
      p <> p' ->
      FileInfo_eq (FileInfo_make n p ext s) (FileInfo_make n p' ext s) = true /\
      FileInfo_make n p ext s <> FileInfo_make n p' ext s) /\
  (forall (files : list FileInfo) (h : string) (group : list FileInfo)
          (a b : FileInfo),
      SMap.find h (fst (findDuplicates files)) = Some group ->
      In a group -> In b group -> FileInfo_eq a b = true).
Proof.
  split; [|split].
  - intros a b. rewrite FileInfo_eq_iff. symmetry.
    apply generateSimpleHash_inj.
  - intros n p p' ext s Hp. split.
    + apply FileInfo_eq_iff. split; reflexivity.
    + intros H. apply Hp. now injection H.
  - intros files h group a b Hfind Ha Hb.
    rewrite find_findDuplicates in Hfind. cbv zeta in Hfind.
    destruct (2 <=? length (filter (same_hash h) files))%nat; [|discriminate].
    injection Hfind as <-.
    apply filter_In in Ha, Hb. destruct Ha as [_ Ha], Hb as [_ Hb].
    unfold same_hash in Ha, Hb. apply String.eqb_eq in Ha, Hb.
    apply FileInfo_eq_iff. apply generateSimpleHash_inj. congruence.
Qed.

Lemma FileInfo_eq_fingerprint_sample :
  "base/a.txt" <> "backup/a.txt" /\
  FileInfo_eq sample_a (FileInfo_make "a.txt" "backup/a.txt" ".txt" 8) = true /\
  sample_a <> FileInfo_make "a.txt" "backup/a.txt" ".txt" 8.
Proof.
  assert (H : "base/a.txt" <> "backup/a.txt") by discriminate.
  split; [exact H|].
  exact (proj1 (proj2 FileInfo_eq_fingerprint)
           "a.txt" "base/a.txt" "backup/a.txt" ".txt" 8%N H).
Defined.

(** ** More on name search *)

Lemma filter_filter_implied {A : Type} (p q : A -> bool) (l : list A) :
  (forall x, q x = true -> p x = true) ->
  filter q (filter p l) = filter q l.
Proof.
  intros H. induction l as [|a l IH]; simpl; [reflexivity|].
  destruct (p a) eqn:Ep; simpl.
  - now rewrite IH.
  - destruct (q a) eqn:Eq; [|exact IH].
    apply H in Eq. congruence.
Qed.

(** X5. Searching within the results of a search for a term that the new
    term contains (letter case apart) gives what searching the whole
    collection for the new term gives; in particular searching the results
    again for the same term returns them unchanged. *)
Theorem searchByName_refines (files : list FileInfo) (term1 term2 : string) :
  (exists pre post,
      toLowercase term2 = pre ++ toLowercase term1 ++ post) ->
  fst (searchByName (fst (searchByName files term1)) term2)
  = fst (searchByName files term2).
Proof.
  intros [pre [post Hsub]].
  rewrite !searchByName_results. apply filter_filter_implied.
  intros file H. apply name_matches_iff in H. apply name_matches_iff.
  destruct H as [a [b H]]. exists (a ++ pre), (post ++ b).
  rewrite H, Hsub. now rewrite !string_app_assoc.
Qed.

Lemma searchByName_refines_sample :
  (exists pre post, toLowercase "REPORT" = pre ++ toLowercase "rep" ++ post) /\
  fst (searchByName report_files "rep")
  = [report_txt; report_2024; reply_doc] /\
  fst (searchByName (fst (searchByName report_files "rep")) "REPORT")
  = fst (searchByName report_files "REPORT") /\
  fst (searchByName report_files "REPORT") = [report_txt; report_2024].
Proof.
  assert (H : exists pre post,
             toLowercase "REPORT" = pre ++ toLowercase "rep" ++ post)
    by (exists "", "ort"; reflexivity).
  split; [exact H|].
  split; [reflexivity|].
  split; [exact (searchByName_refines report_files "rep" "REPORT" H)|].
  reflexivity.
Defined.

(** X6. The log of a search agrees with its result: after the opening
    message comes one "Match found" message per returned record, in
    order, and the closing message gives their number. *)
Theorem searchByName_log (files : list FileInfo) (searchTerm : string) :
  let results := fst (searchByName files searchTerm) in
  snd (searchByName files searchTerm)
  = (("Searching for files containing: " ++ searchTerm)%string
     :: map (fun f => ("Match found: " ++ name f)%string) results
     ++ [("Search complete: " ++ to_string (N.of_nat (length results))
          ++ " matches found")%string])%list.
Proof.
  cbv zeta. rewrite searchByName_results.
  unfold searchByName. rewrite searchByName_loop_filter.
  cbn [snd]. unfold push_back. reflexivity.
Qed.

(** X7. A record is never returned for a term longer than its name, and a
    record of the collection whose name is the term up to letter case
    always is. *)
Theorem searchByName_length_and_exact (files : list FileInfo)
    (searchTerm : string) (file : FileInfo) :
  (In file (fst (searchByName files searchTerm)) ->
   In file files /\
   (String.length searchTerm <= String.length (name file))%nat) /\
  (In file files ->
   toLowercase (name file) = toLowercase searchTerm ->
   In file (fst (searchByName files searchTerm))).
Proof.
  rewrite searchByName_results. split.
  - intros H. apply filter_In in H. destruct H as [Hin H].
    split; [exact Hin|].
    apply name_matches_iff in H. destruct H as [pre [post H]].
    apply (f_equal String.length) in H. unfold toLowercase in H.
    rewrite !string_length_app, !transform_length in H. lia.
  - intros Hin Heq. apply filter_In. split; [exact Hin|].
    apply name_matches_iff. exists "", "". rewrite Heq.
    simpl. now rewrite string_app_nil_r.
Qed.

Lemma searchByName_length_and_exact_sample :
  In sample_a [sample_a; sample_b] /\
  toLowercase (name sample_a) = toLowercase "A.TXT" /\
  In sample_a (fst (searchByName [sample_a; sample_b] "A.TXT")).
Proof.
  assert (H : In sample_a [sample_a; sample_b]) by (left; reflexivity).
  split; [exact H | split; [reflexivity|]].
  exact (proj2 (searchByName_length_and_exact [sample_a; sample_b] "A.TXT"
                  sample_a) H eq_refl).
Defined.

(** ** More on duplicate groups *)

Lemma Permutation_filter_same {A : Type} (p : A -> bool) (l l' : list A) :
  Permutation l l' -> Permutation (filter p l) (filter p l').
Proof.
  induction 1 as [|x l l' _ IH|x y l|l l' l'' _ IH1 _ IH2]; simpl.
  - constructor.
  - destruct (p x); [now constructor | exact IH].
  - destruct (p x), (p y); try apply Permutation_refl. apply perm_swap.
  - now apply Permutation_trans with (filter p l').
Qed.

(** X8. Which records are reported as duplicates does not depend on the
    order of the collection: after a permutation of the input the same
    fingerprints have a group, with the same records in it. *)
Theorem findDuplicates_permutation (files files' : list FileInfo) (h : string) :
  Permutation files files' ->
  match SMap.find h (fst (findDuplicates files)),
        SMap.find h (fst (findDuplicates files')) with
  | Some group, Some group' => Permutation group group'
  | None, None => True
  | _, _ => False
  end.
Proof.
  intros HP. rewrite !find_findDuplicates. cbv zeta.
  pose proof (Permutation_filter_same (same_hash h) files files' HP) as HF.
  rewrite <- (Permutation_length HF).
  destruct (2 <=? length (filter (same_hash h) files))%nat; [exact HF | exact I].
Qed.

Lemma findDuplicates_permutation_sample :
  let copy := FileInfo_make "a.txt" "backup/a.txt" ".txt" 8 in
  Permutation [sample_a; sample_b; copy] [copy; sample_b; sample_a] /\
  match SMap.find "8_a.txt" (fst (findDuplicates [sample_a; sample_b; copy])),
        SMap.find "8_a.txt" (fst (findDuplicates [copy; sample_b; sample_a]))
  with
  | Some group, Some group' => Permutation group group'
  | None, None => True
  | _, _ => False
  end.
Proof.
  intros copy.
  assert (H : Permutation [sample_a; sample_b; copy]
                          [copy; sample_b; sample_a]).
  { apply Permutation_trans with [sample_b; sample_a; copy];
      [apply perm_swap|].
    apply Permutation_trans with [sample_b; copy; sample_a];
      [apply perm_skip, perm_swap | apply perm_swap]. }
  split; [exact H|].
  exact (findDuplicates_permutation [sample_a; sample_b; copy]
           [copy; sample_b; sample_a] "8_a.txt" H).
Defined.

Lemma filter_single_position {A : Type} (p : A -> bool) (l : list A) (i : nat) :
  (forall j y, j <> i -> nth_error l j = Some y -> p y = false) ->
  (length (filter p l) <= 1)%nat.
Proof.
  revert i. induction l as [|a l IH]; intros i H; simpl; [lia|].
  destruct i as [|i].
  - rewrite (filter_none p l).
    + destruct (p a); simpl; lia.
    + intros x Hx. apply In_nth_error in Hx. destruct Hx as [j Hj].
      apply (H (S j) x); [discriminate | exact Hj].
  - rewrite (H 0%nat a); [|discriminate|reflexivity].
    apply (IH i). intros j y Hj Hy. apply (H (S j) y); [lia | exact Hy].
Qed.

(** X9. A record that no record at another position equals (in the sense
    of [operator==]) is in none of the groups. *)
Theorem findDuplicates_unique_not_reported (files : list FileInfo)
    (i : nat) (file : FileInfo) :
  nth_error files i = Some file ->
  (forall j other, j <> i -> nth_error files j = Some other ->
                   FileInfo_eq file other = false) ->
  forall (h : string) (group : list FileInfo),
    SMap.find h (fst (findDuplicates files)) = Some group ->
    ~ In file group.
Proof.
  intros Hi Hunique h group Hfind Hin.
  rewrite find_findDuplicates in Hfind. cbv zeta in Hfind.
  destruct (2 <=? length (filter (same_hash h) files))%nat eqn:E;
    [|discriminate].
  injection Hfind as <-. apply Nat.leb_le in E.
  apply filter_In in Hin. destruct Hin as [_ Hh].
  unfold same_hash in Hh. apply String.eqb_eq in Hh.
  assert (Hle : (length (filter (same_hash h) files) <= 1)%nat).
  { apply (filter_single_position (same_hash h) files i).
    intros j other Hj Hother. specialize (Hunique j other Hj Hother).
    unfold same_hash. apply String.eqb_neq. intros Heq.
    assert (Hfe : FileInfo_eq file other = true).
    { apply FileInfo_eq_iff. apply generateSimpleHash_inj. congruence. }
    congruence. }
  lia.
Qed.

Lemma findDuplicates_unique_not_reported_sample :
  let copy := FileInfo_make "a.txt" "backup/a.txt" ".txt" 8 in
  let files := [sample_a; sample_b; copy] in
  nth_error files 1 = Some sample_b /\
  (forall j other, j <> 1%nat -> nth_error files j = Some other ->
                   FileInfo_eq sample_b other = false) /\
  forall h group,
    SMap.find h (fst (findDuplicates files)) = Some group ->
    ~ In sample_b group.
Proof.
  intros copy files.
  assert (H : forall j other, j <> 1%nat -> nth_error files j = Some other ->
                              FileInfo_eq sample_b other = false).
  { intros [|[|[|j]]] other Hj Hn; simpl in Hn.
    - now injection Hn as <-.
    - now elim Hj.
    - now injection Hn as <-.
    - destruct j; discriminate. }
  split; [reflexivity | split; [exact H|]].
  exact (findDuplicates_unique_not_reported files 1 sample_b eq_refl H).
Defined.

Lemma NoDupA_eq_key_NoDup {A : Type} (l : list (string * A)) :
  NoDupA (@SMap.eq_key A) l -> NoDup (map fst l).
Proof.
  induction 1 as [|x l Hnot _ IH]; simpl; constructor; [|exact IH].
  intros Hin. apply Hnot. apply in_map_iff in Hin.
  destruct Hin as [y [Hy Hin]]. apply InA_alt. exists y.
  split; [|exact Hin]. symmetry. exact Hy.
Qed.

Lemma list_sum_at_least (f : string -> nat) (keys : list string) (c : nat) :
  (forall k, In k keys -> (c <= f k)%nat) ->
  (c * length keys <= list_sum (map f keys))%nat.
Proof.
  induction keys as [|k keys IH]; intros H; simpl; [lia|].
  pose proof (H k (or_introl eq_refl)).
  assert (c * length keys <= list_sum (map f keys))%nat
    by (apply IH; intros k' Hk'; apply H; now right).
  lia.
Qed.

Lemma one_key_per_record (keys : list string) (file : FileInfo) :
  NoDup keys ->
  (list_sum (map (fun k => if same_hash k file then 1 else 0)%nat keys) <= 1)%nat.
Proof.
  induction 1 as [|k keys Hnot _ IH]; simpl; [lia|].
  destruct (same_hash k file) eqn:E; [|exact IH].
  assert (Hz : list_sum (map (fun k => if same_hash k file then 1 else 0)%nat
                             keys) = 0%nat).
  { clear IH. induction keys as [|k' keys IH']; simpl; [reflexivity|].
    destruct (same_hash k' file) eqn:E'.
    - exfalso. apply Hnot. left. unfold same_hash in E, E'.
      apply String.eqb_eq in E, E'. congruence.
    - apply IH'. intros Hin. apply Hnot. now right. }
  lia.
Qed.

Lemma records_under_keys (keys : list string) (files : list FileInfo) :
  NoDup keys ->
  (list_sum (map (fun k => length (filter (same_hash k) files)) keys)
   <= length files)%nat.
Proof.
  intros Hnd. induction files as [|file files IH].
  - clear Hnd. induction keys as [|k keys IHk]; simpl; [lia | exact IHk].
  - assert (Hsplit :
      list_sum (map (fun k => length (filter (same_hash k) (file :: files))) keys)
      = (list_sum (map (fun k => if same_hash k file then 1 else 0) keys)
         + list_sum (map (fun k => length (filter (same_hash k) files)) keys))%nat).
    { clear. induction keys as [|k keys IHk]; simpl; [reflexivity|].
      simpl in IHk. rewrite IHk. destruct (same_hash k file); simpl; lia. }
    rewrite Hsplit. pose proof (one_key_per_record keys file Hnd).
    simpl. lia.
Qed.

(** X10. There are at most half as many duplicate groups as records. *)
Theorem findDuplicates_group_count (files : list FileInfo) :
  (2 * SMap.cardinal (fst (findDuplicates files)) <= length files)%nat.
Proof.
  rewrite SMap.cardinal_1.
  set (duplicates := fst (findDuplicates files)).
  set (els := SMap.elements duplicates).
  rewrite <- (length_map fst els).
  apply Nat.le_trans with
    (list_sum (map (fun k => length (filter (same_hash k) files))
                   (map fst els))).
  - apply list_sum_at_least. intros k Hk.
    apply in_map_iff in Hk. destruct Hk as [[k' g] [Hk Hin]].
    simpl in Hk. subst k'.
    assert (Hm : SMap.MapsTo k g duplicates).
    { apply SMapF.elements_mapsto_iff. apply InA_alt. exists (k, g).
      split; [|exact Hin]. split; reflexivity. }
    apply SMapF.find_mapsto_iff in Hm. unfold duplicates in Hm.
    rewrite find_findDuplicates in Hm. cbv zeta in Hm.
    destruct (2 <=? length (filter (same_hash k) files))%nat eqn:E;
      [|discriminate].
    now apply Nat.leb_le.
  - apply records_under_keys. apply NoDupA_eq_key_NoDup.
    apply SMap.elements_3w.
Qed.

(** ** The reverse mapping of [displayCategories] *)

Lemma find_push_back_under (m : SMap.t (list string)) (cat c ext : string) :
  SMap.find c (push_back_under m cat ext)
  = if String.eqb cat c
    then Some (match SMap.find c m with
               | Some extensions => push_back extensions ext
               | None => [ext]
               end)
    else SMap.find c m.
Proof.
  unfold push_back_under.
  destruct (String.eqb cat c) eqn:E.
  - apply String.eqb_eq in E. subst cat.
    destruct (SMap.find c m); now rewrite SMapF.add_eq_o.
  - apply String.eqb_neq in E.
    destruct (SMap.find cat m); now rewrite SMapF.add_neq_o.
Qed.

Lemma find_fold_push_back_under (l : list (string * string))
    (m : SMap.t (list string)) (c : string) :
  SMap.find c
    (fold_left (fun acc p => push_back_under acc (snd p) (fst p)) l m)
  = match SMap.find c m,
          map fst (filter (fun p => String.eqb (snd p) c) l) with
    | Some l0, g => Some (l0 ++ g)%list
    | None, [] => None
    | None, g => Some g
    end.
Proof.
  revert m. induction l as [|[ext cat] l IH]; intros m.
  - simpl. destruct (SMap.find c m); [now rewrite app_nil_r | reflexivity].
  - cbn [fold_left filter fst snd]. rewrite IH, find_push_back_under.
    destruct (String.eqb cat c).
    + destruct (SMap.find c m) as [l0|]; unfold push_back; cbn [map fst].
      * now rewrite <- app_assoc.
      * reflexivity.
    + reflexivity.
Qed.

Lemma find_categoryGroups_of (table : SMap.t string) (c : string) :
  SMap.find c (categoryGroups_of table)
  = match map fst (filter (fun p => String.eqb (snd p) c)
                          (SMap.elements table)) with
    | [] => None
    | g => Some g
    end.
Proof.
  unfold categoryGroups_of. rewrite SMap.fold_1.
  change (fold_left _ (SMap.elements table) (SMap.empty (list string)))
    with (fold_left (fun acc p => push_back_under acc (snd p) (fst p))
            (SMap.elements table) (SMap.empty (list string))).
  rewrite find_fold_push_back_under. now rewrite SMapF.empty_o.
Qed.

Lemma In_elements_find {A : Type} (m : SMap.t A) (k : string) (v : A) :
  In (k, v) (SMap.elements m) <-> SMap.find k m = Some v.
Proof.
  rewrite <- SMapF.find_mapsto_iff, SMapF.elements_mapsto_iff, InA_alt.
  split.
  - intros H. exists (k, v). split; [split; reflexivity | exact H].
  - intros [[k' v'] [[Hk Hv] Hin]]. simpl in Hk, Hv. now subst.
Qed.

(** Keeping some of the pairs of a table keeps its keys distinct. *)
Lemma kept_keys_distinct (keep : string * string -> bool)
    (pairs : list (string * string)) :
  NoDup (map fst pairs) -> NoDup (map fst (filter keep pairs)).
Proof.
  induction pairs as [|[ext cat] pairs IH]; cbn [map filter fst].
  - intros _. constructor.
  - intros Hkeys. apply NoDup_cons_iff in Hkeys. destruct Hkeys as [Hfresh Hrest].
    destruct (keep (ext, cat)); [|exact (IH Hrest)].
    cbn [map fst]. apply NoDup_cons_iff. split; [|exact (IH Hrest)].
    intros Hkept. apply Hfresh. apply in_map_iff in Hkept.
    destruct Hkept as [[ext' cat'] [Hsame Hkept]]. apply filter_In in Hkept.
    apply in_map_iff. exists (ext', cat'). tauto.
Qed.

(** X11. The groups that [displayCategories] builds from a category table
    are its reverse mapping: an extension is listed under a category
    exactly when the table maps it to that category; no group is empty
    and none lists an extension twice. *)
Theorem categoryGroups_reverse_mapping (table : SMap.t string) :
  (forall ext cat : string,
      SMap.find ext table = Some cat <->
      exists extensions,
        SMap.find cat (categoryGroups_of table) = Some extensions /\
        In ext extensions) /\
  (forall (cat : string) (extensions : list string),
      SMap.find cat (categoryGroups_of table) = Some extensions ->
      extensions <> [] /\ NoDup extensions).
Proof.
  split.
  - intros ext cat. rewrite <- In_elements_find, find_categoryGroups_of.
    set (g := map fst (filter (fun p => String.eqb (snd p) cat)
                              (SMap.elements table))).
    assert (Hg : In ext g <-> In (ext, cat) (SMap.elements table)).
    { unfold g. rewrite in_map_iff. split.
      - intros [[e c] [He Hin]]. simpl in He. subst e.
        apply filter_In in Hin. destruct Hin as [Hin Hc]. simpl in Hc.
        apply String.eqb_eq in Hc. now subst c.
      - intros Hin. exists (ext, cat). split; [reflexivity|].
        apply filter_In. split; [exact Hin | apply String.eqb_refl]. }
    split.
    + intros Hin. apply Hg in Hin. exists g. split; [|exact Hin].
      destruct g; [contradiction | reflexivity].
    + intros [extensions [Hfind Hin]]. apply Hg.
      destruct g; [discriminate|]. now injection Hfind as <-.
  - intros cat extensions Hfind. rewrite find_categoryGroups_of in Hfind.
    match type of Hfind with
    | match ?keys with _ => _ end = _ =>
        assert (Hnd : NoDup keys)
          by (apply kept_keys_distinct, NoDupA_eq_key_NoDup,
                SMap.elements_3w);
        destruct keys as [|e g]; [discriminate|]
    end.
    injection Hfind as <-. split; [discriminate | exact Hnd].
Qed.

(** On the table of the program the groups are the seven categories, in
    the order of the keys of [std::map], with their extensions in that
    order too. *)
Example categoryGroups_of_table :
  map (fun p => (fst p, length (snd p)))
      (SMap.elements (categoryGroups_of extensionCategories))
  = [("Archives", 7); ("Audio", 7); ("Code", 14); ("Documents", 10);
     ("Executables", 6); ("Images", 9); ("Videos", 8)]%nat /\
  SMap.find "Archives" (categoryGroups_of extensionCategories)
  = Some [".7z"; ".bz2"; ".gz"; ".rar"; ".tar"; ".xz"; ".zip"].
Proof. vm_compute. split; reflexivity. Qed.

(** ** More on the reorganizer *)

Section ReorganizerEffects.
Context {FS : Type} {FSI : FileSystem FS}.

(** X12. A record is counted exactly when [fs::rename] was called for it
    and returned: the directory step succeeded, the destination did not
    exist, and the move did not throw; the message "Moved" is then the one
    message logged for the move. *)
Theorem organize_record_moved_iff (baseDirectory : string) (file : FileInfo)
    (w w' : world FS) :
  organize_record baseDirectory file w = (w', Returns true) <->
  exists w1 s2,
    createDirectoryIfNotExists (categoryPath_of baseDirectory file) w
    = (w1, Returns true) /\
    fs_exists (w_fs w1) (destPath_of baseDirectory file) = Returns false /\
    fs_rename (w_fs w1) (path file) (destPath_of baseDirectory file)
    = (s2, Returns tt) /\
    w' = log_line (set_fs w1 s2)
           ("Moved: " ++ name file ++ " â†’ "
            ++ getCategoryForExtension (extension file) ++ "/").
Proof.
  rewrite organize_record_run. cbv zeta.
  destruct (createDirectoryIfNotExists _ w) as [w1 [[|]|what]] eqn:E1.
  - destruct (fs_exists (w_fs w1) _) as [[|]|what] eqn:E2.
    + split; [discriminate|]. intros (w2 & s2 & H & H2 & _). congruence.
    + destruct (fs_rename (w_fs w1) _ _) as [s2 [[]|what]] eqn:E3.
      * split.
        -- intros H. injection H as <-. exists w1, s2. auto.
        -- intros (w2 & s3 & H & _ & H3 & ->). congruence.
      * split; [discriminate|]. intros (w2 & s3 & H & _ & H3 & _).
        congruence.
    + split; [discriminate|]. intros (w2 & s2 & H & H2 & _). congruence.
  - split; [discriminate|]. intros (w2 & s2 & H & _). congruence.
  - split; [discriminate|]. intros (w2 & s2 & H & _). congruence.
Qed.

Lemma createDirectoryIfNotExists_effect (path : string) (w : world FS) :
  exists w' created lines,
    createDirectoryIfNotExists path w = (w', Returns created) /\
    w_files w' = w_files w /\ w_cerr w' = w_cerr w /\
    w_log w' = (w_log w ++ lines)%list /\
    filter (String.prefix "Moved: ") lines = [].
Proof.
  rewrite createDirectoryIfNotExists_run.
  destruct (fs_exists (w_fs w) path) as [[|]|what].
  - exists w, true, []. rewrite app_nil_r. auto.
  - destruct (fs_create_directories (w_fs w) path) as [s' [created|what]].
    + exists (set_fs w s'), created, []. cbn. rewrite app_nil_r. auto.
    + eexists _, false, [_]. repeat split; reflexivity.
  - eexists _, false, [_]. repeat split; reflexivity.
Qed.

Lemma prefix_append (p x : string) : String.prefix p (p ++ x) = true.
Proof. apply prefix_app. now exists x. Qed.

(** What one record adds to the state: messages, at most one line on
    [std::cerr], and one "Moved" message exactly when it is counted. *)
Lemma organize_record_effect (baseDirectory : string) (file : FileInfo)
    (w : world FS) :
  exists w' moved lines errors,
    organize_record baseDirectory file w = (w', Returns moved) /\
    w_files w' = w_files w /\
    w_log w' = (w_log w ++ lines)%list /\
    w_cerr w' = (w_cerr w ++ errors)%list /\
    (length errors <= 1)%nat /\
    length (filter (String.prefix "Moved: ") lines)
    = (if moved then 1 else 0)%nat.
Proof.
  rewrite organize_record_run. cbv zeta.
  destruct (createDirectoryIfNotExists_effect
              (categoryPath_of baseDirectory file) w)
    as (w1 & created & l1 & -> & Hf & Hc & Hl & Hm).
  assert (Hm0 : forall l2,
    length (filter (String.prefix "Moved: ") (l1 ++ l2))
    = length (filter (String.prefix "Moved: ") l2)).
  { intros l2. now rewrite filter_app, Hm. }
  destruct created.
  - destruct (fs_exists (w_fs w1) _) as [[|]|what].
    + eexists _, false, (l1 ++ [_])%list, [].
      split; [reflexivity|]. cbn [log_line w_files w_log w_cerr].
      unfold push_back. rewrite Hf, Hc, Hl, <- app_assoc, app_nil_r, Hm0.
      repeat split; auto.
    + destruct (fs_rename (w_fs w1) _ _) as [s2 [[]|what]].
      * eexists _, true, (l1 ++ [_])%list, [].
        split; [reflexivity|].
        cbn [log_line set_fs w_files w_log w_cerr].
        unfold push_back. rewrite Hf, Hc, Hl, <- app_assoc, app_nil_r, Hm0.
        repeat split; auto.
        cbn [filter]. now rewrite prefix_append.
      * eexists _, false, (l1 ++ [_])%list, [_].
        split; [reflexivity|].
        cbn [cerr_line log_line set_fs w_files w_log w_cerr].
        unfold push_back. rewrite Hf, Hc, Hl, <- app_assoc, Hm0.
        repeat split; auto.
    + eexists _, false, (l1 ++ [_])%list, [_].
      split; [reflexivity|].
      cbn [cerr_line log_line w_files w_log w_cerr].
      unfold push_back. rewrite Hf, Hc, Hl, <- app_assoc, Hm0.
      repeat split; auto.
  - eexists _, false, (l1 ++ [_])%list, [].
    split; [reflexivity|]. cbn [log_line w_files w_log w_cerr].
    unfold push_back. rewrite Hf, Hc, Hl, <- app_assoc, app_nil_r, Hm0.
    repeat split; auto.
Qed.

Lemma organize_loop_effect (baseDirectory : string) (files : list FileInfo)
    (movedCount : Z) (w : world FS) :
  exists w' lines errors,
    organize_loop baseDirectory files movedCount w
    = (w', Returns (movedCount
                    + Z.of_nat (length (filter (String.prefix "Moved: ")
                                               lines)))%Z) /\
    w_files w' = w_files w /\
    w_log w' = (w_log w ++ lines)%list /\
    w_cerr w' = (w_cerr w ++ errors)%list /\
    (length errors <= length files)%nat.
Proof.
  revert movedCount w. induction files as [|file rest IH]; intros movedCount w.
  - exists w, [], []. cbn. rewrite !app_nil_r, Z.add_0_r. auto.
  - destruct (organize_record_effect baseDirectory file w)
      as (w1 & moved & l1 & e1 & H & Hf & Hl & Hc & He & Hm).
    rewrite (organize_loop_cons baseDirectory file rest movedCount w w1
               moved H).
    destruct (IH (if moved then movedCount + 1 else movedCount)%Z w1)
      as (w2 & l2 & e2 & H2 & Hf2 & Hl2 & Hc2 & He2).
    exists w2, (l1 ++ l2)%list, (e1 ++ e2)%list.
    rewrite H2, Hf2, Hl2, Hc2, Hf, Hl, Hc, <- !app_assoc.
    rewrite filter_app, !length_app, Hm.
    repeat split; cbn [length]; [|lia].
    f_equal. f_equal. destruct moved; lia.
Qed.

(** X13. [organizeByExtension] leaves the collection of the [FileManager]
    as it is (the paths in it are then out of date for the records it
    moved), never removes anything from the log or from [std::cerr], and
    writes at most one line per record on [std::cerr]. *)
Theorem organizeByExtension_frame (files : list FileInfo)
    (baseDirectory : string) (w : world FS) :
  exists w' n lines errors,
    organizeByExtension files baseDirectory w = (w', Returns n) /\
    w_files w' = w_files w /\
    w_log w' = (w_log w ++ lines)%list /\
    w_cerr w' = (w_cerr w ++ errors)%list /\
    (length errors <= length files)%nat.
Proof.
  unfold organizeByExtension. unfold bind at 1. unfold Logger_log at 1.
  destruct (organize_loop_effect baseDirectory files 0
              (log_line w ("Starting file organization in: " ++ baseDirectory)))
    as (w1 & l1 & e1 & H & Hf & Hl & Hc & He).
  unfold bind at 1. rewrite H.
  eexists _, _, (_ :: l1 ++ [_])%list, e1. split; [reflexivity|].
  cbn [log_line w_files w_log w_cerr]. unfold push_back.
  rewrite Hf, Hl, Hc. cbn [log_line w_files w_log w_cerr]. unfold push_back.
  rewrite <- !app_assoc. repeat split; auto.
Qed.

(** X14. The count that [organizeByExtension] returns is the number of
    "Moved" messages that it added to the log. *)
Theorem organizeByExtension_count_is_moved_lines (files : list FileInfo)
    (baseDirectory : string) (w : world FS) :
  exists w' lines,
    organizeByExtension files baseDirectory w
    = (w', Returns (Z.of_nat (length (filter (String.prefix "Moved: ")
                                             lines)))) /\
    w_log w' = (w_log w ++ lines)%list.
Proof.
  unfold organizeByExtension. unfold bind at 1. unfold Logger_log at 1.
  destruct (organize_loop_effect baseDirectory files 0
              (log_line w ("Starting file organization in: " ++ baseDirectory)))
    as (w1 & l1 & e1 & H & Hf & Hl & Hc & He).
  unfold bind at 1. rewrite H. rewrite Z.add_0_l.
  set (n := Z.of_nat (length (filter (String.prefix "Moved: ") l1))).
  eexists _, (("Starting file organization in: " ++ baseDirectory)%string
              :: l1
              ++ [("Organization complete: " ++ to_string_int n
                   ++ " files moved")%string])%list.
  split.
  - unfold bind, Logger_log, ret. cbn [filter]. rewrite filter_app.
    replace (String.prefix "Moved: "
               ("Starting file organization in: " ++ baseDirectory))
      with false by reflexivity.
    cbn [filter].
    replace (String.prefix "Moved: "
               ("Organization complete: " ++ to_string_int n
                ++ " files moved"))
      with false by reflexivity.
    rewrite app_nil_r. reflexivity.
  - cbn [log_line w_files w_log w_cerr]. unfold push_back.
    rewrite Hl. cbn [log_line w_log]. unfold push_back.
    now rewrite <- !app_assoc.
Qed.

End ReorganizerEffects.

(** ** More on scanning *)

Lemma substr_after_separator (c : ascii) (dir n : string) :
  substr (S (String.length dir)) (dir ++ String c n) = n.
Proof.
  induction dir as [|a dir IH]; simpl; [now destruct n | exact IH].
Qed.

Lemma static_cast_int_small (n : nat) :
  (Z.of_nat n < 2 ^ 31)%Z -> static_cast_int n = Z.of_nat n.
Proof.
  intros H. unfold static_cast_int.
  rewrite Z.mod_small by lia.
  destruct (Z.of_nat n <? 2 ^ 31)%Z eqn:E; [reflexivity|].
  apply Z.ltb_ge in E. lia.
Qed.

Lemma well_formed_FileInfo_default : well_formed_record FileInfo_default.
Proof. repeat split. now left. Qed.

Section ScannerEffects.
Context {FS : Type} {FSI : FileSystem FS}.

Lemma well_formed_scanned_record (s : FS) (entry : string) :
  well_formed_record (scanned_record s entry).
Proof.
  unfold scanned_record. destruct (fs_file_size s entry).
  - repeat split. now right.
  - apply well_formed_FileInfo_default.
Qed.

(** [getFileInfo] always returns the record of the entry; it logs when the
    size could not be read. *)
Lemma getFileInfo_run (filePath : string) (w : world FS) :
  getFileInfo filePath w
  = match fs_file_size (w_fs w) filePath with
    | Returns _ => (w, Returns (scanned_record (w_fs w) filePath))
    | Throws what =>
        (log_line w ("ERROR reading file info: " ++ what),
         Returns (scanned_record (w_fs w) filePath))
    end.
Proof.
  unfold getFileInfo, scanned_record, try_catch, bind, file_size, ret,
    Logger_log.
  destruct (fs_file_size (w_fs w) filePath); reflexivity.
Qed.

(** X19. The name of a record is the last component of its path: for an
    entry [dir/n], where [n] holds no separator, [getFileInfo] returns the
    name [n], the extension of [n] and the size that the filesystem
    reports, without touching the state. *)
Theorem getFileInfo_of_joined_path (dir n : string) (fileSize : N)
    (w : world FS) :
  has_char "/" n = false ->
  fs_file_size (w_fs w) (dir ++ "/" ++ n) = Returns fileSize ->
  path_filename (dir ++ "/" ++ n) = n /\
  getFileInfo (dir ++ "/" ++ n) w
  = (w, Returns (FileInfo_make n (dir ++ "/" ++ n) (extractExtension n)
                   fileSize)).
Proof.
  intros Hn Hsize.
  assert (Hname : path_filename (dir ++ "/" ++ n) = n).
  { unfold path_filename. change (dir ++ "/" ++ n) with (dir ++ String "/" n).
    rewrite find_last_of_app by exact Hn. apply substr_after_separator. }
  split; [exact Hname|].
  rewrite getFileInfo_run, Hsize. unfold scanned_record.
  now rewrite Hsize, Hname.
Qed.

(** What the loop over the entries does to the state, whatever the
    filesystem answers. *)
Lemma scan_entries_effect (entries : list string) (w : world FS) :
  exists w' r lines records,
    scan_entries entries w = (w', r) /\
    w_fs w' = w_fs w /\ w_cerr w' = w_cerr w /\
    w_log w' = (w_log w ++ lines)%list /\
    w_files w' = (w_files w ++ records)%list /\
    Forall well_formed_record records.
Proof.
  revert w. induction entries as [|entry rest IH]; intros w.
  - exists w, (Returns tt), [], []. rewrite !app_nil_r.
    repeat split; auto.
  - cbn [scan_entries]. unfold bind at 1. unfold is_regular_file at 1.
    destruct (fs_is_regular_file (w_fs w) entry) as [[|]|what].
    + unfold bind at 1. unfold bind at 1. rewrite getFileInfo_run.
      set (info := scanned_record (w_fs w) entry).
      destruct (fs_file_size (w_fs w) entry) as [sz|what];
        unfold bind, files_push_back, Logger_log;
        match goal with
        | |- context [scan_entries rest ?w0] =>
            destruct (IH w0) as (w' & r & l & fl & -> & Hs & Hc & Hl & Hf & Hw)
        end;
        cbn [log_line set_files w_fs w_log w_cerr w_files] in Hs, Hc, Hl, Hf;
        unfold push_back in Hl, Hf;
        repeat rewrite <- app_assoc in Hl; repeat rewrite <- app_assoc in Hf;
        eexists w', r, _, (info :: fl);
        (split; [reflexivity|]);
        (split; [exact Hs|]); (split; [exact Hc|]);
        (split; [exact Hl|]); (split; [exact Hf|]);
        constructor; [apply well_formed_scanned_record | exact Hw
                     | apply well_formed_scanned_record | exact Hw].
    + unfold bind at 1. unfold ret at 1. apply IH.
    + exists w, (Throws what), [], []. rewrite !app_nil_r.
      repeat split; auto.
Qed.

(** The same loop when [is_regular_file] answers for every entry: one
    record per regular file, in the order of the entries. *)
Lemma scan_entries_run (entries : list string) (w : world FS) :
  Forall (fun entry => exists regular,
            fs_is_regular_file (w_fs w) entry = Returns regular) entries ->
  exists w',
    scan_entries entries w = (w', Returns tt) /\
    w_fs w' = w_fs w /\ w_cerr w' = w_cerr w /\
    w_files w'
    = (w_files w
       ++ map (scanned_record (w_fs w)) (regular_entries (w_fs w) entries))%list.
Proof.
  revert w. induction entries as [|entry rest IH]; intros w Hall.
  - exists w. cbn. rewrite app_nil_r. auto.
  - inversion Hall as [|? ? [regular Hreg] Hrest]; subst.
    cbn [scan_entries regular_entries filter]. unfold bind at 1.
    unfold is_regular_file at 1. rewrite Hreg. destruct regular.
    + unfold bind at 1. unfold bind at 1. rewrite getFileInfo_run.
      destruct (fs_file_size (w_fs w) entry) as [sz|what] eqn:Esz;
        unfold bind, files_push_back, Logger_log;
        match goal with
        | |- context [scan_entries rest ?w0] =>
            destruct (IH w0 Hrest) as (w' & -> & Hs & Hc & Hf)
        end;
        cbn [log_line set_files w_fs w_log w_cerr w_files] in Hs, Hc, Hf;
        unfold push_back in Hf; rewrite <- app_assoc in Hf;
        exists w'; repeat split; assumption.
    + unfold bind at 1. unfold ret at 1. apply (IH w Hrest).
Qed.

Lemma scanDirectory_effect (targetDirectory : string) (w : world FS) :
  exists w' n,
    scanDirectory targetDirectory w = (w', Returns n) /\
    w_fs w' = w_fs w /\
    only_logged w w' /\
    Forall well_formed_record (w_files w').
Proof.
  unfold scanDirectory. unfold bind at 1. unfold files_clear.
  unfold bind at 1. rewrite directoryExists_run.
  change (w_fs (set_files w [])) with (w_fs w).
  assert (Hlog : forall msg : string,
             only_logged w (log_line (set_files w []) msg)).
  { intros msg. split; [exists [msg] | exists []]; cbn;
      [reflexivity | now rewrite app_nil_r]. }
  assert (Hno : exists w' n,
    (Logger_log "ERROR: Cannot scan non-existent directory" ;; ret 0%Z)
      (set_files w []) = (w', Returns n) /\
    w_fs w' = w_fs w /\ only_logged w w' /\
    Forall well_formed_record (w_files w')).
  { eexists _, _. split; [reflexivity|].
    cbn [log_line set_files w_fs w_log w_cerr w_files].
    split; [reflexivity|]. split; [apply Hlog | constructor]. }
  assert (Hno2 : forall what, exists w' n,
    (Logger_log "ERROR: Cannot scan non-existent directory" ;; ret 0%Z)
      (log_line (set_files w []) ("ERROR checking directory: " ++ what))
    = (w', Returns n) /\
    w_fs w' = w_fs w /\ only_logged w w' /\
    Forall well_formed_record (w_files w')).
  { intros what. eexists _, _. split; [reflexivity|].
    cbn [log_line set_files w_fs w_log w_cerr w_files].
    split; [reflexivity|]. split; [|constructor].
    split; cbn [log_line set_files w_fs w_log w_cerr w_files].
    - unfold push_back. rewrite <- app_assoc. eexists. reflexivity.
    - exists []. now rewrite app_nil_r. }
  destruct (fs_exists (w_fs w) targetDirectory) as [[|]|what];
    cbn [negb]; [|exact Hno|apply Hno2].
  destruct (fs_is_directory (w_fs w) targetDirectory) as [[|]|what];
    cbn [negb]; [|exact Hno|apply Hno2].
  unfold try_catch. unfold bind at 1. unfold scan_iteration.
  change (w_fs (set_files w [])) with (w_fs w).
  destruct (fs_directory_iterator (w_fs w) targetDirectory)
    as [entries failure].
  unfold bind at 1.
  destruct (scan_entries_effect entries (set_files w []))
    as (w1 & r & l & fl & -> & Hs & Hc & Hl & Hf & Hw).
  cbn [set_files w_fs w_log w_cerr w_files app] in Hs, Hc, Hl, Hf.
  assert (Hcatch : forall what, exists w' n,
    (let errorMsg := "ERROR scanning directory: " ++ what in
     Logger_log errorMsg ;; cerr_endl errorMsg ;; ret 0%Z) w1
    = (w', Returns n) /\
    w_fs w' = w_fs w /\ only_logged w w' /\
    Forall well_formed_record (w_files w')).
  { intros what. eexists _, _.
    cbv beta zeta iota delta [bind Logger_log cerr_endl ret].
    split; [reflexivity|].
    unfold only_logged.
    cbn [cerr_line log_line w_fs w_log w_cerr w_files].
    split; [exact Hs|]. rewrite Hf. split; [|exact Hw].
    unfold push_back. rewrite Hl, Hc, <- app_assoc.
    split; eexists; reflexivity. }
  destruct r as [[]|what]; [|apply Hcatch].
  destruct failure as [what|]; [apply Hcatch|].
  eexists _, _.
  cbv beta zeta iota delta [bind Logger_log files_size ret].
  split; [reflexivity|].
  unfold only_logged.
  cbn [log_line w_fs w_log w_cerr w_files].
  split; [exact Hs|]. rewrite Hf. split; [|exact Hw].
  unfold push_back. rewrite Hl, Hc, <- app_assoc.
  split; [eexists; reflexivity | exists []; now rewrite app_nil_r].
Qed.

(** X15. A scan never changes the filesystem, and it never removes
    anything from the log or from [std::cerr]. *)
Theorem scanDirectory_frame (targetDirectory : string) (w : world FS) :
  exists w' n,
    scanDirectory targetDirectory w = (w', Returns n) /\
    w_fs w' = w_fs w /\
    only_logged w w'.
Proof.
  destruct (scanDirectory_effect targetDirectory w)
    as (w' & n & H & Hs & Hl & _).
  exists w', n. auto.
Qed.

(** X18. After any scan, whatever failed, every record of the collection
    has as extension the one extracted from its name and an empty hash,
    and is either the default record (its size could not be read) or has as
    name the last component of its path. *)
Theorem scanDirectory_records_well_formed (targetDirectory : string)
    (w : world FS) :
  Forall well_formed_record (w_files (fst (scanDirectory targetDirectory w))).
Proof.
  destruct (scanDirectory_effect targetDirectory w)
    as (w' & n & H & _ & _ & Hw).
  now rewrite H.
Qed.

(** X16. When the directory exists, the iteration ends without failure
    and [is_regular_file] answers for every entry, the collection
    afterwards holds one record per regular file, in the order of the
    iteration, and the value returned is their number (as an [int]: the
    number itself below 2^31). *)
Theorem scanDirectory_complete (targetDirectory : string) (w : world FS)
    (entries : list string) :
  fs_exists (w_fs w) targetDirectory = Returns true ->
  fs_is_directory (w_fs w) targetDirectory = Returns true ->
  fs_directory_iterator (w_fs w) targetDirectory = (entries, None) ->
  Forall (fun entry => exists regular,
            fs_is_regular_file (w_fs w) entry = Returns regular) entries ->
  let records :=
    map (scanned_record (w_fs w)) (regular_entries (w_fs w) entries) in
  exists w',
    scanDirectory targetDirectory w
    = (w', Returns (static_cast_int (length records))) /\
    w_files w' = records /\
    ((Z.of_nat (length records) < 2 ^ 31)%Z ->
     static_cast_int (length records) = Z.of_nat (length records)).
Proof.
  intros Hex Hdir Hit Hall records.
  unfold scanDirectory. unfold bind at 1. unfold files_clear.
  unfold bind at 1. rewrite directoryExists_run.
  change (w_fs (set_files w [])) with (w_fs w). rewrite Hex, Hdir.
  cbn [negb]. unfold try_catch. unfold bind at 1. unfold scan_iteration.
  change (w_fs (set_files w [])) with (w_fs w). rewrite Hit.
  unfold bind at 1.
  destruct (scan_entries_run entries (set_files w []) Hall)
    as (w1 & -> & Hs & Hc & Hf).
  cbn [set_files w_fs w_files app] in Hf.
  unfold ret at 1, bind at 1, files_size at 1.
  eexists. split; [|split].
  - unfold bind, Logger_log, ret. rewrite Hf. reflexivity.
  - cbn. exact Hf.
  - apply static_cast_int_small.
Qed.

(** X17. When the iteration fails after it has yielded entries, the value
    returned is 0 although the collection holds the records of the regular
    files seen before the failure; the error goes to the log and to
    [std::cerr]. *)
Theorem scanDirectory_partial (targetDirectory : string) (w : world FS)
    (entries : list string) (what : string) :
  fs_exists (w_fs w) targetDirectory = Returns true ->
  fs_is_directory (w_fs w) targetDirectory = Returns true ->
  fs_directory_iterator (w_fs w) targetDirectory = (entries, Some what) ->
  Forall (fun entry => exists regular,
            fs_is_regular_file (w_fs w) entry = Returns regular) entries ->
  exists w',
    scanDirectory targetDirectory w = (w', Returns 0%Z) /\
    w_files w'
    = map (scanned_record (w_fs w)) (regular_entries (w_fs w) entries) /\
    w_cerr w' = push_back (w_cerr w) ("ERROR scanning directory: " ++ what).
Proof.
  intros Hex Hdir Hit Hall.
  unfold scanDirectory. unfold bind at 1. unfold files_clear.
  unfold bind at 1. rewrite directoryExists_run.
  change (w_fs (set_files w [])) with (w_fs w). rewrite Hex, Hdir.
  cbn [negb]. unfold try_catch. unfold bind at 1. unfold scan_iteration.
  change (w_fs (set_files w [])) with (w_fs w). rewrite Hit.
  unfold bind at 1.
  destruct (scan_entries_run entries (set_files w []) Hall)
    as (w1 & -> & Hs & Hc & Hf).
  cbn [set_files w_fs w_files w_cerr app] in Hf, Hc.
  unfold throw. eexists. split; [reflexivity|].
  cbn. rewrite Hf, Hc. split; reflexivity.
Qed.

End ScannerEffects.

(** ** The handlers of the menu *)

Section MenuProperties.
Context {FS : Type} {FSI : FileSystem FS}.

Lemma directoryExists_effect (targetDirectory : string) (w : world FS) :
  exists w' found,
    directoryExists targetDirectory w = (w', Returns found) /\
    w_fs w' = w_fs w /\ w_files w' = w_files w /\
    (found = true <->
     fs_exists (w_fs w) targetDirectory = Returns true /\
     fs_is_directory (w_fs w) targetDirectory = Returns true).
Proof.
  rewrite directoryExists_run.
  destruct (fs_exists (w_fs w) targetDirectory) as [[|]|what].
  - destruct (fs_is_directory (w_fs w) targetDirectory) as [[|]|what].
    + exists w, true. repeat split; auto.
    + exists w, false. repeat split; auto; try discriminate.
      intros [_ H]. discriminate.
    + eexists _, false. repeat split; auto; try discriminate.
      intros [_ H]. discriminate.
  - exists w, false. repeat split; auto; try discriminate.
    intros [H _]. discriminate.
  - eexists _, false. repeat split; auto; try discriminate.
    intros [H _]. discriminate.
Qed.

Lemma FileManager_new_effect (dirPath : string) (w : world FS) :
  exists w',
    FileManager_new dirPath w = (w', Returns tt) /\
    w_fs w' = w_fs w /\ w_files w' = w_files w.
Proof.
  unfold FileManager_new. unfold bind at 1. unfold Logger_log at 1.
  unfold bind at 1.
  destruct (directoryExists_effect dirPath
              (log_line w ("FileManager initialized for directory: "
                           ++ dirPath)))
    as (w1 & found & -> & Hs & Hf & _).
  cbn [log_line w_fs w_files] in Hs, Hf.
  destruct found; cbn [negb].
  - exists w1. auto.
  - eexists. split; [reflexivity|]. cbn. auto.
Qed.

(** X20. [handleOrganizeFiles] does nothing when no file was scanned or
    when the answer, in lower case, is neither "yes" nor "y"; on any other
    answer it runs [organizeByExtension] on the scanned collection and then
    scans again, and it reports the count of the former. It never throws. *)
Theorem handleOrganizeFiles_confirmation (menu : Menu) (confirm : string)
    (w : world FS) :
  (w_files w = [] ->
   handleOrganizeFiles menu confirm w = (w, Returns OrganizeNoFiles)) /\
  (w_files w <> [] ->
   toLowercase confirm <> "yes" -> toLowercase confirm <> "y" ->
   handleOrganizeFiles menu confirm w = (w, Returns OrganizeCancelled)) /\
  (w_files w <> [] ->
   toLowercase confirm = "yes" \/ toLowercase confirm = "y" ->
   exists w1 n w2 rescanned,
     organizeByExtension (w_files w) (currentDirectory menu) w
     = (w1, Returns n) /\
     scanDirectory (fileManager_targetDirectory menu) w1
     = (w2, Returns rescanned) /\
     handleOrganizeFiles menu confirm w = (w2, Returns (Organized n)) /\
     (0 <= n <= Z.of_nat (length (w_files w)))%Z).
Proof.
  assert (Hrun :
    handleOrganizeFiles menu confirm w
    = match w_files w with
      | [] => (w, Returns OrganizeNoFiles)
      | _ :: _ =>
          if negb (String.eqb (toLowercase confirm) "yes")
             && negb (String.eqb (toLowercase confirm) "y")
          then (w, Returns OrganizeCancelled)
          else
            (movedCount <- organizeByExtension (w_files w)
                             (currentDirectory menu) ;;
             scanDirectory (fileManager_targetDirectory menu) ;;
             ret (Organized movedCount)) w
      end).
  { unfold handleOrganizeFiles, toLowercase. unfold bind at 1.
    unfold getFiles. cbv beta iota zeta.
    destruct (w_files w); [reflexivity|].
    now destruct (negb _ && negb _). }
  rewrite Hrun. clear Hrun. split; [|split].
  - intros ->. reflexivity.
  - intros Hne Hyes Hy. destruct (w_files w) as [|f files]; [now elim Hne|].
    apply String.eqb_neq in Hyes, Hy. now rewrite Hyes, Hy.
  - intros Hne Hyes.
    destruct (organizeByExtension_returns (w_files w) (currentDirectory menu) w)
      as (w1 & n & Horg & Hn).
    destruct (scanDirectory_returns (fileManager_targetDirectory menu) w1)
      as (w2 & rescanned & Hscan).
    exists w1, n, w2, rescanned.
    split; [exact Horg | split; [exact Hscan | split; [|exact Hn]]].
    assert (Hc : negb (String.eqb (toLowercase confirm) "yes")
                 && negb (String.eqb (toLowercase confirm) "y") = false).
    { destruct Hyes as [-> | ->]; reflexivity. }
    rewrite Hc. unfold bind. rewrite Horg, Hscan.
    destruct (w_files w); [now elim Hne | reflexivity].
Qed.

(** X21. [handleChangeDirectory] never changes the filesystem and never
    throws. Either it leaves the menu and the collection as they are, or
    the new path is not empty and names an existing directory, and then
    both the menu and its [FileManager] point to it and the collection is
    empty until the next scan. If the two directories of the menu agreed
    before, they agree afterwards. *)
Theorem handleChangeDirectory_outcome (menu : Menu) (newDir : string)
    (w : world FS) :
  exists w' menu',
    handleChangeDirectory menu newDir w = (w', Returns menu') /\
    w_fs w' = w_fs w /\
    ((menu' = menu /\ w_files w' = w_files w) \/
     (menu' = mkMenu newDir newDir (isRunning menu) /\
      w_files w' = [] /\ newDir <> "" /\
      fs_exists (w_fs w) newDir = Returns true /\
      fs_is_directory (w_fs w) newDir = Returns true)) /\
    (fileManager_targetDirectory menu = currentDirectory menu ->
     fileManager_targetDirectory menu' = currentDirectory menu').
Proof.
  unfold handleChangeDirectory.
  destruct (String.eqb newDir "") eqn:Eempty.
  - exists w, menu. repeat split; auto.
  - apply String.eqb_neq in Eempty.
    unfold try_catch. unfold bind at 1.
    destruct (FileManager_new_effect newDir w) as (w1 & -> & Hs1 & Hf1).
    unfold bind at 1.
    destruct (directoryExists_effect newDir w1)
      as (w2 & found & -> & Hs2 & Hf2 & Hfound).
    destruct found; cbn [negb].
    + eexists _, _. split; [reflexivity|].
      cbn [set_files w_fs w_files]. split; [congruence|]. split.
      * right. destruct (proj1 Hfound eq_refl) as [Hex Hdir].
        rewrite Hs1 in Hex, Hdir. repeat split; auto.
      * reflexivity.
    + exists w2, menu. split; [reflexivity|].
      split; [congruence|]. split; [left; split; congruence | auto].
Qed.

End MenuProperties.

(** ** Instances of the further properties on the sample tree *)

Lemma scanDirectory_complete_sample :
  let entries := ["base/a.txt"; "base/b.jpg"; "base/c.zip"; "base/notes";
                  "base/private"; "base/Documents"] in
  fs_exists (w_fs sample_world) "base" = Returns true /\
  fs_is_directory (w_fs sample_world) "base" = Returns true /\
  fs_directory_iterator (w_fs sample_world) "base" = (entries, None) /\
  Forall (fun entry => exists regular,
            fs_is_regular_file (w_fs sample_world) entry = Returns regular)
         entries /\
  exists w',
    scanDirectory "base" sample_world = (w', Returns 4%Z) /\
    w_files w' = [sample_a; sample_b; sample_c; sample_notes].
Proof.
  intros entries.
  assert (Hall : Forall (fun entry => exists regular,
            fs_is_regular_file (w_fs sample_world) entry = Returns regular)
         entries)
    by (repeat constructor; eexists; reflexivity).
  assert (H1 : fs_exists (w_fs sample_world) "base" = Returns true)
    by reflexivity.
  assert (H2 : fs_is_directory (w_fs sample_world) "base" = Returns true)
    by reflexivity.
  assert (H3 : fs_directory_iterator (w_fs sample_world) "base"
               = (entries, None)) by reflexivity.
  split; [exact H1 | split; [exact H2 | split; [exact H3|]]].
  split; [exact Hall|].
  destruct (scanDirectory_complete "base" sample_world entries
              H1 H2 H3 Hall) as (w' & H & Hf & _).
  exists w'. split; [exact H | exact Hf].
Defined.

Lemma scanDirectory_partial_sample :
  let entries := ["base/a.txt"; "base/b.jpg"] in
  fs_exists (w_fs flaky_world) "base" = Returns true /\
  fs_is_directory (w_fs flaky_world) "base" = Returns true /\
  fs_directory_iterator (w_fs flaky_world) "base"
  = (entries, Some "Input/output error") /\
  Forall (fun entry => exists regular,
            fs_is_regular_file (w_fs flaky_world) entry = Returns regular)
         entries /\
  exists w',
    scanDirectory "base" flaky_world = (w', Returns 0%Z) /\
    w_files w' = [sample_a; sample_b].
Proof.
  intros entries.
  assert (Hall : Forall (fun entry => exists regular,
            fs_is_regular_file (w_fs flaky_world) entry = Returns regular)
         entries)
    by (repeat constructor; eexists; reflexivity).
  assert (H1 : fs_exists (w_fs flaky_world) "base" = Returns true)
    by reflexivity.
  assert (H2 : fs_is_directory (w_fs flaky_world) "base" = Returns true)
    by reflexivity.
  assert (H3 : fs_directory_iterator (w_fs flaky_world) "base"
               = (entries, Some "Input/output error")) by reflexivity.
  split; [exact H1 | split; [exact H2 | split; [exact H3|]]].
  split; [exact Hall|].
  destruct (scanDirectory_partial "base" flaky_world entries
              "Input/output error" H1 H2 H3 Hall)
    as (w' & H & Hf & _).
  exists w'. split; [exact H | exact Hf].
Defined.

Lemma getFileInfo_of_joined_path_sample :
  has_char "/" "a.txt" = false /\
  fs_file_size (w_fs sample_world) ("base" ++ "/" ++ "a.txt") = Returns 8%N /\
  getFileInfo "base/a.txt" sample_world = (sample_world, Returns sample_a).
Proof.
  assert (H1 : has_char "/" "a.txt" = false) by reflexivity.
  assert (H2 : fs_file_size (w_fs sample_world) ("base" ++ "/" ++ "a.txt")
               = Returns 8%N) by reflexivity.
  split; [exact H1 | split; [exact H2|]].
  exact (proj2 (getFileInfo_of_joined_path "base" "a.txt" 8 sample_world
                  H1 H2)).
Defined.

Lemma handleOrganizeFiles_confirmation_sample :
  let menu := mkMenu "base" "base" true in
  w_files scanned_world <> [] /\
  (toLowercase "YES" = "yes" \/ toLowercase "YES" = "y") /\
  toLowercase "no" <> "yes" /\ toLowercase "no" <> "y" /\
  handleOrganizeFiles menu "no" scanned_world
  = (scanned_world, Returns OrganizeCancelled) /\
  exists w2 n,
    handleOrganizeFiles menu "YES" scanned_world
    = (w2, Returns (Organized n)) /\
    (0 <= n <= 4)%Z.
Proof.
  intros menu.
  assert (Hne : w_files scanned_world <> []) by discriminate.
  assert (Hyes : toLowercase "YES" = "yes" \/ toLowercase "YES" = "y")
    by (left; reflexivity).
  assert (Hn1 : toLowercase "no" <> "yes") by discriminate.
  assert (Hn2 : toLowercase "no" <> "y") by discriminate.
  split; [exact Hne | split; [exact Hyes|]].
  split; [exact Hn1 | split; [exact Hn2|]].
  destruct (handleOrganizeFiles_confirmation menu "no" scanned_world)
    as (_ & Hcancel & _).
  split; [exact (Hcancel Hne Hn1 Hn2)|].
  destruct (handleOrganizeFiles_confirmation menu "YES" scanned_world)
    as (_ & _ & Hrun).
  destruct (Hrun Hne Hyes) as (w1 & n & w2 & rescanned & _ & _ & H & Hn).
  exists w2, n. split; [exact H | exact Hn].
Defined.

(** With the sample tree scanned, the answer "YES" organizes (only "c.zip"
    can be moved) and scans again: "c.zip" has left the collection. *)
Example handleOrganizeFiles_sample :
  let '(w, r) :=
    handleOrganizeFiles (mkMenu "base" "base" true) "YES" scanned_world in
  r = Returns (Organized 1) /\
  w_files w = [sample_a; sample_b; sample_notes].
Proof. vm_compute. split; reflexivity. Qed.
